(** * desw_bitcoin: the bitcoind plugin of desw

    A shallow embedding of [desw_bitcoin.py] and the properties of its
    balance cache, receive processor, send path and notification
    dispatcher.

    The module talks to three collaborators that live outside of it:
    the SQLAlchemy session [ses] over the ledger store, the JSON-RPC
    handle returned by [create_client], and the ledger core entry points
    [process_credit] and [confirm_send].  The session is modelled by the
    pair of the store as the session sees it and the store as last
    committed; the daemon by a record of responses; the ledger core by the
    effect its documentation gives. *)

From Stdlib Require Import ZArith String Ascii List Lia Bool.
From Stdlib Require Import DecimalString.
From stdpp Require Import base option list strings.
Import ListNotations.

Local Open Scope string_scope.
Local Open Scope list_scope.

(** ** Constants of the module *)

Definition NETCODES : list string := ["BTC"; "XTN"].
Definition NETWORK : string := "Bitcoin".

(** [str.lower] on the ASCII letters. *)
Definition lower_ascii (c : ascii) : ascii :=
  let n := nat_of_ascii c in
  if (65 <=? n)%nat && (n <=? 90)%nat then ascii_of_nat (n + 32) else c.

Fixpoint lower (s : string) : string :=
  match s with
  | EmptyString => EmptyString
  | String c s' => String (lower_ascii c) (lower s')
  end.

(** [CURRENCIES] and [CONFS] are read from the configuration file when the
    module is imported. *)
Record Config := mkConfig {
  CURRENCIES : list string;
  CONFS : Z
}.

(** ** Data model *)

(** Amounts are exact decimals (the RPC proxy parses JSON numbers as
    decimals, the ledger columns are exact amounts); they are counted
    here in the smallest unit of the currency. *)

Module Credit.
Record t := mk {
  amount : Z;
  address : string;
  currency : string;
  network : string;
  transaction_state : string;
  reference : string;
  ref_id : string;
  user_id : Z
}.

Definition set_transaction_state (s : string) (c : t) : t :=
  mk (amount c) (address c) (currency c) (network c) s
     (reference c) (ref_id c) (user_id c).

Definition set_ref_id (r : string) (c : t) : t :=
  mk (amount c) (address c) (currency c) (network c) (transaction_state c)
     (reference c) r (user_id c).
End Credit.

Module Address.
Record t := mk {
  address : string;
  user_id : Z
}.
End Address.

Module HWBalance.
Record t := mk {
  available : Z;
  total : Z;
  currency : string;
  network : string;
  time : Z
}.

Definition set_available (a : Z) (h : t) : t :=
  mk a (total h) (currency h) (network h) (time h).

Definition set_total (x : Z) (h : t) : t :=
  mk (available h) x (currency h) (network h) (time h).
End HWBalance.

(** One entry of [txd['details']], and the transaction as the daemon
    reports it. *)
Module Detail.
Record t := mk {
  address : string;
  amount : Z;
  category : string
}.
End Detail.

Module Txd.
Record t := mk {
  confirmations : Z;
  txid : string;
  details : list Detail.t
}.
End Txd.

(** The answer to [getinfo], as far as the module reads it. *)
Module Info.
Record t := mk {
  blocks : Z;
  balance : Z
}.
End Info.

(** The daemon behind the RPC handle.  [None] is a call that fails with a
    JSON-RPC error. *)
Record Daemon := mkDaemon {
  gettransaction : string -> option Txd.t;
  getinfo : option Info.t;
  getbalance : string -> Z -> option Z;
  sendtoaddress : string -> Z -> option string;
  getnewaddress : option string
}.

Inductive RpcCall :=
| GetTransaction (txid : string)
| GetInfo
| GetBalance (account : string) (minconf : Z)
| SendToAddress (address : string) (amount : Z)
| GetNewAddress.

Inductive LogEntry :=
| LogInfo (msg : string)
| LogWarning (msg : string)
| LogException (msg : string).

Inductive exn :=
| AttributeError
| IndexError
| JSONRPCException
| SQLAlchemyError.

Definition exn_message (e : exn) : string :=
  match e with
  | AttributeError => "AttributeError"
  | IndexError => "IndexError"
  | JSONRPCException => "JSONRPCException"
  | SQLAlchemyError => "SQLAlchemyError"
  end.

(** The tables this module reads and writes. *)
Record Store := mkStore {
  credits : list Credit.t;
  hwbalances : list HWBalance.t
}.

(** A call of the ledger core's [confirm_send]. *)
Record SendConfirmation := mkSendConfirmation {
  sc_address : string;
  sc_amount : Z;
  sc_ref_id : string
}.

(** Everything a call can read or change.
    - [ses]: the store as seen through the session (queries flush first,
      so they see pending changes);
    - [db]: the store as of the last successful commit;
    - [addresses]: the address table, which this module only reads;
    - [commits]: the outcomes of the commits still to come, the next one
      first ([false]: the database fails the commit whatever is flushed;
      no entry counts as [true]);
    - [rpc]: the calls made on the daemon so far;
    - [confirm_sends]: the calls of [confirm_send] so far;
    - [lastblock]: the module's global;
    - [now]: the clock, read when a row is inserted. *)
Record World := mkWorld {
  ses : Store;
  db : Store;
  addresses : list Address.t;
  log : list LogEntry;
  commits : list bool;
  rpc : list RpcCall;
  confirm_sends : list SendConfirmation;
  lastblock : Z;
  now : Z
}.

Definition set_ses (s : Store) (w : World) : World :=
  mkWorld s (db w) (addresses w) (log w) (commits w) (rpc w) (confirm_sends w)
          (lastblock w) (now w).

Definition set_db (s : Store) (w : World) : World :=
  mkWorld (ses w) s (addresses w) (log w) (commits w) (rpc w) (confirm_sends w)
          (lastblock w) (now w).

Definition set_log (l : list LogEntry) (w : World) : World :=
  mkWorld (ses w) (db w) (addresses w) l (commits w) (rpc w) (confirm_sends w)
          (lastblock w) (now w).

Definition set_commits (c : list bool) (w : World) : World :=
  mkWorld (ses w) (db w) (addresses w) (log w) c (rpc w) (confirm_sends w)
          (lastblock w) (now w).

Definition set_rpc (r : list RpcCall) (w : World) : World :=
  mkWorld (ses w) (db w) (addresses w) (log w) (commits w) r (confirm_sends w)
          (lastblock w) (now w).

Definition set_confirm_sends (c : list SendConfirmation) (w : World) : World :=
  mkWorld (ses w) (db w) (addresses w) (log w) (commits w) (rpc w) c
          (lastblock w) (now w).

Definition set_lastblock (b : Z) (w : World) : World :=
  mkWorld (ses w) (db w) (addresses w) (log w) (commits w) (rpc w)
          (confirm_sends w) b (now w).

(** ** Computations: state and exceptions *)

Inductive result (A : Type) :=
| Ok (a : A) (w : World)
| Raise (e : exn) (w : World).
Arguments Ok {A} a w.
Arguments Raise {A} e w.

Definition M (A : Type) : Type := World -> result A.

Definition ret {A} (a : A) : M A := fun w => Ok a w.

Definition bind {A B} (c : M A) (k : A -> M B) : M B :=
  fun w => match c w with
           | Ok a w' => k a w'
           | Raise e w' => Raise e w'
           end.

Definition raise {A} (e : exn) : M A := fun w => Raise e w.

(** [try: c except Exception as e: h e] *)
Definition try_except {A} (c : M A) (h : exn -> M A) : M A :=
  fun w => match c w with
           | Ok a w' => Ok a w'
           | Raise e w' => h e w'
           end.

Declare Scope py_scope.
Delimit Scope py_scope with py.
Notation "x <- c ;; k" := (bind c (fun x => k))
  (at level 100, c at next level, right associativity) : py_scope.
Notation "c ;; k" := (bind c (fun _ => k))
  (at level 100, right associativity) : py_scope.
Local Open Scope py_scope.

Definition world_of {A} (r : result A) : World :=
  match r with
  | Ok _ w => w
  | Raise _ w => w
  end.

Definition returns {A} (r : result A) : bool :=
  match r with
  | Ok _ _ => true
  | Raise _ _ => false
  end.

(** [for x in l: body x] *)
Fixpoint for_each {A} (body : A -> M unit) (l : list A) : M unit :=
  match l with
  | [] => ret tt
  | x :: rest => body x ;; for_each body rest
  end.

(** [enumerate(l)] *)
Fixpoint enumerate_from {A} (k : nat) (l : list A) : list (nat * A) :=
  match l with
  | [] => []
  | x :: rest => (k, x) :: enumerate_from (S k) rest
  end.

Definition enumerate {A} (l : list A) : list (nat * A) := enumerate_from 0 l.

(** ["%s" % p] for a natural number. *)
Definition str_of_nat (p : nat) : string :=
  NilEmpty.string_of_uint (Nat.to_uint p).

(** ["%s:%s" % (txid, p)] *)
Definition ref_of (txid : string) (p : nat) : string :=
  txid ++ ":" ++ str_of_nat p.

(** [s.split(':')[0]]: the part of [s] before its first colon. *)
Fixpoint split_colon_head (s : string) : string :=
  match s with
  | EmptyString => EmptyString
  | String c s' =>
      if Ascii.eqb c ":"%char then EmptyString
      else String c (split_colon_head s')
  end.

(** [a or b] on strings: the empty string is falsy. *)
Definition str_or (a b : string) : string :=
  match a with
  | EmptyString => b
  | _ => a
  end.

(** ** The logger *)

Definition logger_info (msg : string) : M unit :=
  fun w => Ok tt (set_log (log w ++ [LogInfo msg]) w).

Definition logger_warning (msg : string) : M unit :=
  fun w => Ok tt (set_log (log w ++ [LogWarning msg]) w).

Definition logger_exception (e : exn) : M unit :=
  fun w => Ok tt (set_log (log w ++ [LogException (exn_message e)]) w).

(** ** The session *)

(** Modelled from the spec: the credit table ([wm.Credit], declared in
    [sqlalchemy_models] and not part of this module) holds at most one
    Credit per external reference id: its column [ref_id] is UNIQUE, and
    the database refuses a flush that would leave two credits under one
    reference id.  The check is on the table as flushed. *)
Fixpoint refs_unique_b (cs : list Credit.t) : bool :=
  match cs with
  | [] => true
  | c :: rest =>
      negb (existsb (fun c' => Credit.ref_id c' =? Credit.ref_id c) rest)
      && refs_unique_b rest
  end.

(** The outcome to come for the next commit, as far as it does not depend
    on what is flushed. *)
Definition commit_outcome (w : World) : bool :=
  match commits w with
  | [] => true
  | b :: _ => b
  end.

(** Whether the next commit succeeds: its outcome to come is success and
    the credits it flushes keep [ref_id] unique. *)
Definition next_commit_ok (w : World) : bool :=
  commit_outcome w && refs_unique_b (credits (ses w)).

(** [ses.commit()]: takes the next outcome.  A commit that succeeds makes
    the session's view the committed store, one that fails raises and
    leaves the session as it is. *)
Definition ses_commit : M unit :=
  fun w =>
    let w' := set_commits (tail (commits w)) w in
    if next_commit_ok w then Ok tt (set_db (ses w') w')
    else Raise SQLAlchemyError w'.

(** [ses.rollback()]: pending changes are discarded and the objects
    expired, so the session sees the committed store again. *)
Definition ses_rollback : M unit :=
  fun w => Ok tt (set_ses (db w) w).

(** [ses.flush()]: pending changes are sent to the database within the
    transaction; the session's view is the same before and after. *)
Definition ses_flush : M unit := ret tt.

(** Rows are objects of the session: a query hands out a row together
    with its place in the table, and an assignment to an attribute of the
    row writes the row at that place. *)
Definition write_hwbalance (i : nat) (h : HWBalance.t) : M unit :=
  fun w => Ok tt (set_ses (mkStore (credits (ses w))
                                   (<[i := h]> (hwbalances (ses w)))) w).

Definition write_credit (i : nat) (c : Credit.t) : M unit :=
  fun w => Ok tt (set_ses (mkStore (<[i := c]> (credits (ses w)))
                                   (hwbalances (ses w))) w).

(** [ses.add(obj)] of an object that is already in the session does
    nothing; of a new object, it adds a row. *)
Definition ses_add_persistent : M unit := ret tt.

Definition ses_add_new_credit (c : Credit.t) : M unit :=
  fun w => Ok tt (set_ses (mkStore (credits (ses w) ++ [c])
                                   (hwbalances (ses w))) w).

(** [wm.HWBalance(available, total, currency, network)] added to the
    session: the [time] column is filled with the clock on insert. *)
Definition ses_add_new_hwbalance (available total : Z) (currency network : string)
  : M unit :=
  fun w => Ok tt (set_ses
    (mkStore (credits (ses w))
             (hwbalances (ses w)
                ++ [HWBalance.mk available total currency network (now w)])) w).

(** ** Queries *)

(** [ses.query(wm.Credit).filter(wm.Credit.ref_id == r)] *)
Definition credits_with_ref (r : string) (cs : list Credit.t) : list Credit.t :=
  filter (fun c => Credit.ref_id c = r) cs.

(** [ses.query(wm.Address).filter(wm.Address.address == a).first()] *)
Definition first_address (a : string) (l : list Address.t) : option Address.t :=
  List.find (fun x => Address.address x =? a) l.

(** The rows of a table together with their places. *)
Definition rows {A} (l : list A) : list (nat * A) := enumerate l.

(** [ses.query(wm.Credit).filter(wm.Credit.transaction_state == 'unconfirmed')
        .filter(wm.Credit.network == NETWORK)] *)
Definition is_unconfirmed (c : Credit.t) : bool :=
  (Credit.transaction_state c =? "unconfirmed") && (Credit.network c =? NETWORK).

Definition unconfirmed_credits (cs : list Credit.t) : list (nat * Credit.t) :=
  List.filter (fun ic => is_unconfirmed (snd ic)) (rows cs).

(** [.filter(wm.HWBalance.network == net).order_by(wm.HWBalance.time.desc())
    .first()]: the place of the row of network [net] with the greatest
    time.  The order among rows of equal time is the database's; here the
    earliest such row comes first. *)
Definition hwb_key (h : HWBalance.t) : string * Z :=
  (HWBalance.network h, HWBalance.time h).

Fixpoint latest_from (net : string) (k : nat) (keys : list (string * Z))
    (best : option (nat * Z)) : option (nat * Z) :=
  match keys with
  | [] => best
  | (n, t) :: rest =>
      let best' :=
        if n =? net then
          match best with
          | None => Some (k, t)
          | Some (_, bt) => if (bt <? t)%Z then Some (k, t) else best
          end
        else best in
      latest_from net (S k) rest best'
  end.

Definition latest_index (net : string) (keys : list (string * Z)) : option nat :=
  match latest_from net 0 keys None with
  | Some (i, _) => Some i
  | None => None
  end.

Definition first_hwbalance (l : list HWBalance.t) : option (nat * HWBalance.t) :=
  match latest_index (lower NETWORK) (hwb_key <$> l) with
  | Some i =>
      match l !! i with
      | Some h => Some (i, h)
      | None => None
      end
  | None => None
  end.

Definition query_first_hwbalance : M (option (nat * HWBalance.t)) :=
  fun w => Ok (first_hwbalance (hwbalances (ses w))) w.

(** [hwb.available += a] and [hwb.total += x], where [hwb] is what the
    query returned: [None] has no attributes; a row is changed where it
    is, in the session. *)
Definition hwb_iadd_available (hwb : option (nat * HWBalance.t)) (a : Z) : M unit :=
  match hwb with
  | None => raise AttributeError
  | Some (i, _) =>
      fun w => Ok tt (set_ses
        (mkStore (credits (ses w))
           (alter (fun h => HWBalance.set_available (HWBalance.available h + a) h)
                  i (hwbalances (ses w)))) w)
  end.

Definition hwb_iadd_total (hwb : option (nat * HWBalance.t)) (x : Z) : M unit :=
  match hwb with
  | None => raise AttributeError
  | Some (i, _) =>
      fun w => Ok tt (set_ses
        (mkStore (credits (ses w))
           (alter (fun h => HWBalance.set_total (HWBalance.total h + x) h)
                  i (hwbalances (ses w)))) w)
  end.

(** [cred.transaction_state = s] and [cred.ref_id = r] on a row of the
    credit table. *)
Definition cred_set_transaction_state (i : nat) (s : string) : M unit :=
  fun w => Ok tt (set_ses
    (mkStore (alter (Credit.set_transaction_state s) i (credits (ses w)))
             (hwbalances (ses w))) w).

Definition cred_set_ref_id (i : nat) (r : string) : M unit :=
  fun w => Ok tt (set_ses
    (mkStore (alter (Credit.set_ref_id r) i (credits (ses w)))
             (hwbalances (ses w))) w).

(** ** The ledger core *)

(** Modelled from the spec: [process_credit], the credit-creation entry
    point of the ledger core, is imported from [desw] and is not part of
    this module.  It creates a Credit with the amount, currency, network,
    state, reference and user it is given.  The row is added to the
    session. *)
Definition process_credit (amount : Z) (address currency network
    transaction_state reference ref_id : string) (user_id : Z) : M unit :=
  ses_add_new_credit
    (Credit.mk amount address currency network transaction_state reference
               ref_id user_id).

(** Modelled from the spec: [confirm_send], the send-confirmation
    collaborator of the ledger core, is imported from [desw] and is not
    part of this module.  It is invoked with the destination address, the
    amount and the reference id; the invocation is recorded. *)
Definition confirm_send (address : string) (amount : Z) (ref_id : string) : M unit :=
  fun w => Ok tt (set_confirm_sends
    (confirm_sends w ++ [mkSendConfirmation address amount ref_id]) w).

(** ** The address validator *)

(** What a call of a function that does not touch the ledger can do. *)
Inductive outcome (A : Type) :=
| Returned (a : A)
| Raised.
Arguments Returned {A} a.
Arguments Raised {A}.

(** [x is None] and [x is not None] *)
Definition is_none {A} (x : option A) : bool :=
  match x with
  | None => true
  | Some _ => false
  end.

Definition is_not_none {A} (x : option A) : bool := negb (is_none x).

(** [a != b] for values that are a string or [None]. *)
Definition py_ne (a b : option string) : bool :=
  match a, b with
  | Some x, Some y => negb (x =? y)
  | None, None => false
  | _, _ => true
  end.

Section Validator.
(** [pycoin.key.validate.is_address_valid(address, allowable_netcodes)]:
    the netcode the address decodes to, [None] when it does not
    validate; the decoding may raise. *)
Variable is_address_valid : string -> list string -> outcome (option string).

Definition validate_address (address : string) (network : option string)
  : outcome bool :=
  match is_address_valid address NETCODES with
  | Raised => Returned false
  | Returned netcode =>
      if is_none netcode || (is_not_none network && py_ne netcode network)
      then Returned false
      else Returned true
  end.
End Validator.

(** ** The plugin *)

Section Plugin.
Variable cfg : Config.
(** The handle [create_client()] returns. *)
Variable client : Daemon.

Definition rpc_call {A} (c : RpcCall) (answer : option A) : M A :=
  fun w =>
    let w' := set_rpc (rpc w ++ [c]) w in
    match answer with
    | Some a => Ok a w'
    | None => Raise JSONRPCException w'
    end.

Definition client_gettransaction (txid : string) : M Txd.t :=
  rpc_call (GetTransaction txid) (gettransaction client txid).

Definition client_getinfo : M Info.t :=
  rpc_call GetInfo (getinfo client).

Definition client_getbalance (account : string) (minconf : Z) : M Z :=
  rpc_call (GetBalance account minconf) (getbalance client account minconf).

Definition client_sendtoaddress (address : string) (amount : Z) : M string :=
  rpc_call (SendToAddress address amount) (sendtoaddress client address amount).

Definition client_getnewaddress : M string :=
  rpc_call GetNewAddress (getnewaddress client).

(** [CURRENCIES[0]] *)
Definition CURRENCIES_0 : M string :=
  match CURRENCIES cfg with
  | c :: _ => ret c
  | [] => raise IndexError
  end.

Definition get_new_address : M string := client_getnewaddress.

Definition adjust_hwbalance (available total : option Z) : M unit :=
  if is_none available && is_none total then ret tt
  else
    hwb <- query_first_hwbalance ;;
    match available with
    | Some a => hwb_iadd_available hwb a
    | None => ret tt
    end ;;
    match total with
    | Some x => hwb_iadd_total hwb x
    | None => ret tt
    end ;;
    ses_add_persistent ;;
    try_except ses_commit
      (fun e => logger_exception e ;; ses_rollback ;; ses_flush).

Definition send_to_address (address : string) (amount : Z) : M string :=
  txid <- client_sendtoaddress address amount ;;
  adjust_hwbalance (Some (- amount)%Z) (Some (- amount)%Z) ;;
  ret txid.

(** The dict [get_balance] returns. *)
Record BalanceDict := mkBalanceDict {
  bd_total : Z;
  bd_available : Z
}.

Definition get_balance : M BalanceDict :=
  hwb <- query_first_hwbalance ;;
  match hwb with
  | None => raise AttributeError
  | Some (_, h) =>
      ret (mkBalanceDict (HWBalance.total h) (HWBalance.available h))
  end.

Definition process_receive (txid : string) (details : Detail.t)
    (confirmed : bool) : M unit :=
  fun w =>
    let creds := credits_with_ref txid (credits (ses w)) in
    if (0 <? length creds)%nat then
      logger_info "txid already known. returning." w
    else
      let transaction_state :=
        if confirmed then "complete" else "unconfirmed" in
      match first_address (Detail.address details) (addresses w) with
      | None => logger_warning "address not known. returning." w
      | Some addy =>
          let amount := Detail.amount details in
          (logger_info ("crediting txid " ++ txid) ;;
           currency <- CURRENCIES_0 ;;
           process_credit amount (Detail.address details) currency NETWORK
             transaction_state "tx received" txid (Address.user_id addy) ;;
           adjust_hwbalance None (Some amount)) w
      end.

(** The body of the loop over the outputs of a transaction. *)
Definition handle_output (txid : string) (confirmed : bool)
    (pput : nat * Detail.t) : M unit :=
  let '(p, put) := pput in
  if Detail.category put =? "send" then
    confirm_send (Detail.address put) (Detail.amount put) (ref_of txid p)
  else if Detail.category put =? "receive" then
    process_receive (ref_of txid p) put confirmed
  else ret tt.

(** The body of the loop over the unconfirmed credits. *)
Definition recheck_credit (icred : nat * Credit.t) : M unit :=
  let '(i, cred) := icred in
  let txid := str_or (split_colon_head (Credit.ref_id cred)) (Credit.ref_id cred) in
  txd <- client_gettransaction txid ;;
  if (CONFS cfg <=? Txd.confirmations txd)%Z then
    cred_set_transaction_state i "complete" ;;
    for_each (fun pput => cred_set_ref_id i (ref_of (Txd.txid txd) (fst pput)))
             (enumerate (Txd.details txd)) ;;
    ses_add_persistent
  else ret tt.

(** The part of [main] that goes over the unconfirmed credits and
    commits what it changed. *)
Definition recheck_unconfirmed : M unit :=
  creds <- (fun w => Ok (unconfirmed_credits (credits (ses w))) w) ;;
  for_each recheck_credit creds ;;
  try_except ses_commit
    (fun e => logger_exception e ;; ses_rollback ;; ses_flush).

(** The part of [main] under [# update balances]. *)
Definition update_balances (info : Info.t) : M unit :=
  total <- client_getbalance "*" 0 ;;
  let avail := Info.balance info in
  currency <- CURRENCIES_0 ;;
  ses_add_new_hwbalance avail total currency (lower NETWORK) ;;
  try_except ses_commit (fun _ => ses_rollback ;; ses_flush).

(** [main], after [argparse] has bound the two positional arguments
    [type] and [data] (both are required, so [data] is never [None]). *)
Definition main (typ data : string) : M unit :=
  if typ =? "transaction" then
    let txid := data in
    txd <- client_gettransaction txid ;;
    let confirmed := (CONFS cfg <=? Txd.confirmations txd)%Z in
    for_each (handle_output txid confirmed) (enumerate (Txd.details txd))
  else if typ =? "block" then
    info <- client_getinfo ;;
    fun w =>
      if (Info.blocks info <=? lastblock w)%Z then Ok tt w
      else
        ((fun w => Ok tt (set_lastblock (Info.blocks info) w)) ;;
         recheck_unconfirmed ;;
         update_balances info) w
  else ret tt.
End Plugin.

(** ** Vocabulary of the statements *)

(** The row [adjust_hwbalance] leaves in place of row [h]. *)
Definition adjusted (available total : option Z) (h : HWBalance.t) : HWBalance.t :=
  HWBalance.mk (HWBalance.available h + default 0%Z available)
               (HWBalance.total h + default 0%Z total)
               (HWBalance.currency h) (HWBalance.network h) (HWBalance.time h).

(** The session's view after the two [+=] of [adjust_hwbalance]. *)
Definition adjusted_store (available total : option Z) (i : nat)
    (h : HWBalance.t) (s : Store) : Store :=
  mkStore (credits s) (<[i := adjusted available total h]> (hwbalances s)).

(** The claim of the documentation about [adjust_balance], as it is
    worded: the call appends to the log of snapshots a row that carries the
    adjusted values of the latest row, with its currency and network, and
    leaves the rows that were there as they were. *)
Definition snapshot_appended (available total : option Z) (w w' : World) : Prop :=
  exists i h new,
    first_hwbalance (hwbalances (db w)) = Some (i, h) /\
    hwbalances (db w') = hwbalances (db w) ++ [new] /\
    HWBalance.available new = (HWBalance.available h + default 0 available)%Z /\
    HWBalance.total new = (HWBalance.total h + default 0 total)%Z /\
    HWBalance.currency new = HWBalance.currency h /\
    HWBalance.network new = HWBalance.network h.

(** ** Sample data *)

Module Sample.
Definition cfg : Config := mkConfig ["BTC"] 3.

Definition seeded : Store :=
  mkStore [] [HWBalance.mk 100 100 "BTC" "bitcoin" 1].

(** A ledger with one snapshot, one known address and no credit. *)
Definition w0 : World :=
  mkWorld seeded seeded [Address.mk "known-addr" 7] [] [] [] [] 0 50.

(** The same ledger when the next commit is going to fail. *)
Definition w_failing : World := set_commits [false] w0.
End Sample.


(** At most one Credit per external reference id. *)
Definition unique_ref_ids (cs : list Credit.t) : Prop :=
  forall r, length (credits_with_ref r cs) <= 1.

(** The state [process_receive] gives a new Credit. *)
Definition state_of_confirmed (confirmed : bool) : string :=
  if confirmed then "complete" else "unconfirmed".

(** The world once a call has logged [e]. *)
Definition logged (e : LogEntry) (w : World) : World :=
  set_log (log w ++ [e]) w.


(** The Credit [process_receive] asks the ledger core to create. *)
Definition credit_for (txid : string) (details : Detail.t) (confirmed : bool)
    (currency : string) (addy : Address.t) : Credit.t :=
  Credit.mk (Detail.amount details) (Detail.address details) currency NETWORK
            (state_of_confirmed confirmed) "tx received" txid
            (Address.user_id addy).


(** An output that the loop over a transaction's outputs acts upon. *)
Definition is_send_or_receive (pput : nat * Detail.t) : bool :=
  (Detail.category (snd pput) =? "send")
  || (Detail.category (snd pput) =? "receive").

Module SampleDaemon.
(** The transaction "abc": two outputs received, five confirmations. *)
Definition tx_abc : Txd.t :=
  Txd.mk 5 "abc" [Detail.mk "known-addr" 150 "receive";
                  Detail.mk "known-addr" 20 "receive"].

(** A daemon at height 10 that knows the transaction "abc". *)
Definition client : Daemon :=
  mkDaemon (fun t => if t =? "abc" then Some tx_abc else None)
           (Some (Info.mk 10 1000))
           (fun _ _ => Some 1200%Z)
           (fun _ _ => Some "sent-txid")
           (Some "new-addr").

(** The ledger of [Sample.w0] when block 10 has been seen. *)
Definition w_seen : World := set_lastblock 10 Sample.w0.

(** The credit for the first output of "abc", not yet confirmed. *)
Definition cred_abc_0 : Credit.t :=
  Credit.mk 150 "known-addr" "BTC" "Bitcoin" "unconfirmed" "tx received"
            "abc:0" 7.

(** A ledger that holds this credit. *)
Definition pending : Store :=
  mkStore [cred_abc_0] [HWBalance.mk 100 250 "BTC" "bitcoin" 1].

Definition w_pending : World :=
  mkWorld pending pending [Address.mk "known-addr" 7] [] [] [] [] 0 50.
End SampleDaemon.


Module SampleDecoder.
(** A stand-in for the decoder: a leading "1" decodes to BTC, a leading
    "m" to XTN, a leading "!" makes the decoding raise, anything else does
    not validate. *)
Definition is_address_valid (address : string) (allowable : list string)
  : outcome (option string) :=
  match address with
  | String "1" _ => Returned (Some "BTC")
  | String "m" _ => Returned (Some "XTN")
  | String "!" _ => Raised
  | _ => Returned None
  end.
End SampleDecoder.


(** The transaction id the block path asks the daemon about for a credit:
    [cred.ref_id.split(':')[0] or cred.ref_id]. *)
Definition credit_txid (c : Credit.t) : string :=
  str_or (split_colon_head (Credit.ref_id c)) (Credit.ref_id c).

(** The assignments of the inner loop of the block path, one per output
    of the transaction, on one credit. *)
Definition set_ref_ids (txid : string) (outputs : list (nat * Detail.t))
    (c : Credit.t) : Credit.t :=
  fold_left (fun c pput => Credit.set_ref_id (ref_of txid (fst pput)) c)
            outputs c.

(** What the block path makes of a credit whose transaction [txd] has
    enough confirmations. *)
Definition completed (txd : Txd.t) (c : Credit.t) : Credit.t :=
  set_ref_ids (Txd.txid txd) (enumerate (Txd.details txd))
              (Credit.set_transaction_state "complete" c).

(** The credit table after the block path has dealt with one unconfirmed
    credit, given what the daemon answers. *)
Definition recheck_step (cfg : Config) (client : Daemon)
    (cs : list Credit.t) (icred : nat * Credit.t) : list Credit.t :=
  match gettransaction client (credit_txid (snd icred)) with
  | Some txd =>
      if (CONFS cfg <=? Txd.confirmations txd)%Z
      then alter (completed txd) (fst icred) cs
      else cs
  | None => cs
  end.

(** The index at the end of a reference id: the digits after its last
    colon, read as a number ([None] without a colon or with something else
    than digits after it). *)
Fixpoint digits_value (acc : nat) (s : string) : option nat :=
  match s with
  | EmptyString => Some acc
  | String c s' =>
      let n := nat_of_ascii c in
      if (48 <=? n)%nat && (n <=? 57)%nat
      then digits_value (10 * acc + (n - 48)) s'
      else None
  end.

Fixpoint after_last_colon (s : string) : option string :=
  match s with
  | EmptyString => None
  | String c s' =>
      match after_last_colon s' with
      | Some t => Some t
      | None => if Ascii.eqb c ":"%char then Some s' else None
      end
  end.

Definition output_index (ref_id : string) : option nat :=
  match after_last_colon ref_id with
  | Some (String c t) => digits_value 0 (String c t)
  | _ => None
  end.


(** What a run of the loop can change: the credits at the places it goes
    over, in the session, and the record of the calls to the daemon. *)
Definition loop_frame (places : list nat) (w w' : World) : Prop :=
  db w' = db w /\ hwbalances (ses w') = hwbalances (ses w) /\
  log w' = log w /\ commits w' = commits w /\ lastblock w' = lastblock w /\
  length (credits (ses w')) = length (credits (ses w)) /\
  forall j, ~ In j places -> credits (ses w') !! j = credits (ses w) !! j.


(** The world after [try: ses.commit()] with the handler that rolls back,
    with the failure logged ([logs = true]) or not. *)
Definition committed_or_rolled_back (logs : bool) (w : World) : World :=
  let w1 := set_commits (tail (commits w)) w in
  if next_commit_ok w then set_db (ses w) w1
  else set_ses (db w)
         (if logs
          then set_log (log w ++ [LogException (exn_message SQLAlchemyError)]) w1
          else w1).


(** No commit to come fails for a reason of the database's own, and the
    credits in the session keep [ref_id] unique: a commit of the session as
    it is, or with changes that keep the reference ids apart, succeeds. *)
Definition all_commits_ok (w : World) : Prop :=
  Forall (fun b => b = true) (commits w) /\
  refs_unique_b (credits (ses w)) = true.

(** The session has no pending change. *)
Definition clean (w : World) : Prop := ses w = db w.

(** A delta that may be omitted, as a number. *)
Definition delta (d : option Z) : Z := default 0%Z d.

Module SampleEmpty.
(** A ledger that was never seeded with a snapshot. *)
Definition unseeded : Store := mkStore [] [].

Definition w_unseeded : World :=
  mkWorld unseeded unseeded [Address.mk "known-addr" 7] [] [] [] [] 0 50.

(** A ledger whose only snapshot is filed under the capitalised name of
    the network. *)
Definition w_capitalised : World :=
  set_ses (mkStore [] [HWBalance.mk 100 100 "BTC" "Bitcoin" 1]) w_unseeded.

(** A ledger with two snapshots of the network and one of another. *)
Definition three : Store :=
  mkStore [] [HWBalance.mk 10 10 "BTC" "bitcoin" 1;
              HWBalance.mk 30 40 "BTC" "bitcoin" 5;
              HWBalance.mk 70 70 "DASH" "dash" 9].

Definition w_three : World :=
  mkWorld three three [] [] [] [] [] 0 50.
End SampleEmpty.


Module SampleFailures.
(** A daemon that answers nothing: every call fails. *)
Definition down : Daemon :=
  mkDaemon (fun _ => None) None (fun _ _ => None) (fun _ _ => None) None.
End SampleFailures.


(** [':' in s] *)
Fixpoint has_colon (s : string) : bool :=
  match s with
  | EmptyString => false
  | String c s' => Ascii.eqb c ":"%char || has_colon s'
  end.

(** The world [process_receive] hands to [adjust_hwbalance]: the credit is
    in the session and the crediting is logged. *)
Definition credited (c : Credit.t) (txid : string) (w : World) : World :=
  set_ses (mkStore (credits (ses w) ++ [c]) (hwbalances (ses w)))
          (logged (LogInfo ("crediting txid " ++ txid)) w).

(** The ways a call of [process_receive] can end. *)
Inductive receive_outcome (cfg : Config) (txid : string) (details : Detail.t)
    (confirmed : bool) (w : World) : result unit -> Prop :=
| receive_known :
    credits_with_ref txid (credits (ses w)) <> [] ->
    receive_outcome cfg txid details confirmed w
      (Ok tt (logged (LogInfo "txid already known. returning.") w))
| receive_unknown_address :
    credits_with_ref txid (credits (ses w)) = [] ->
    first_address (Detail.address details) (addresses w) = None ->
    receive_outcome cfg txid details confirmed w
      (Ok tt (logged (LogWarning "address not known. returning.") w))
| receive_no_currency :
    credits_with_ref txid (credits (ses w)) = [] ->
    CURRENCIES cfg = [] ->
    receive_outcome cfg txid details confirmed w
      (Raise IndexError (logged (LogInfo ("crediting txid " ++ txid)) w))
| receive_unseeded addy cur rest :
    credits_with_ref txid (credits (ses w)) = [] ->
    first_address (Detail.address details) (addresses w) = Some addy ->
    CURRENCIES cfg = cur :: rest ->
    first_hwbalance (hwbalances (ses w)) = None ->
    receive_outcome cfg txid details confirmed w
      (Raise AttributeError
         (credited (credit_for txid details confirmed cur addy) txid w))
| receive_committed addy cur rest i h :
    credits_with_ref txid (credits (ses w)) = [] ->
    first_address (Detail.address details) (addresses w) = Some addy ->
    CURRENCIES cfg = cur :: rest ->
    first_hwbalance (hwbalances (ses w)) = Some (i, h) ->
    next_commit_ok w = true ->
    let w1 := credited (credit_for txid details confirmed cur addy) txid w in
    let s' := adjusted_store None (Some (Detail.amount details)) i h (ses w1) in
    receive_outcome cfg txid details confirmed w
      (Ok tt (set_db s' (set_commits (tail (commits w)) (set_ses s' w1))))
| receive_rolled_back addy cur rest i h :
    credits_with_ref txid (credits (ses w)) = [] ->
    first_address (Detail.address details) (addresses w) = Some addy ->
    CURRENCIES cfg = cur :: rest ->
    first_hwbalance (hwbalances (ses w)) = Some (i, h) ->
    next_commit_ok w = false ->
    receive_outcome cfg txid details confirmed w
      (Ok tt (set_ses (db w)
                (set_commits (tail (commits w))
                   (logged (LogException (exn_message SQLAlchemyError))
                      (logged (LogInfo ("crediting txid " ++ txid)) w))))).


(** The outputs the loop of a transaction notification hands to
    [confirm_send], and those it hands to [process_receive]. *)
Definition is_send (pput : nat * Detail.t) : bool :=
  Detail.category (snd pput) =? "send".

Definition is_receive (pput : nat * Detail.t) : bool :=
  negb (is_send pput) && (Detail.category (snd pput) =? "receive").

(** The call of [confirm_send] for a send output. *)
Definition send_confirmation (txid : string) (pput : nat * Detail.t)
  : SendConfirmation :=
  mkSendConfirmation (Detail.address (snd pput)) (Detail.amount (snd pput))
                     (ref_of txid (fst pput)).

(** A receive output is settled when a credit is filed under its reference
    id or its address is not one of the ledger's. *)
Definition settled (txid : string) (w : World) (pput : nat * Detail.t) : Prop :=
  is_receive pput = true ->
  credits_with_ref (ref_of txid (fst pput)) (credits (ses w)) <> [] \/
  first_address (Detail.address (snd pput)) (addresses w) = None.

Module SampleSend.
(** The transaction "pay": one output sent, one received, one fee. *)
Definition tx_pay : Txd.t :=
  Txd.mk 1 "pay" [Detail.mk "dest" 40 "send";
                  Detail.mk "known-addr" 25 "receive";
                  Detail.mk "" 1 "fee"].

Definition client : Daemon :=
  mkDaemon (fun t => if t =? "pay" then Some tx_pay else None)
           (Some (Info.mk 10 1000))
           (fun _ _ => Some 1200%Z)
           (fun _ _ => Some "sent-txid")
           (Some "new-addr").
End SampleSend.


(** The snapshot a block notification adds. *)
Definition fresh_snapshot (info : Info.t) (total : Z) (currency : string)
    (w : World) : HWBalance.t :=
  HWBalance.mk (Info.balance info) total currency (lower NETWORK) (now w).

Module SampleBlock.
(** A daemon at height 10 that does not know the transaction "abc". *)
Definition forgetful : Daemon :=
  mkDaemon (fun _ => None) (Some (Info.mk 10 1000)) (fun _ _ => Some 1200%Z)
           (fun _ _ => None) None.

(** A daemon at height 10 for which "abc" has one confirmation. *)
Definition tx_young : Txd.t :=
  Txd.mk 1 "abc" [Detail.mk "known-addr" 150 "receive"].

Definition early : Daemon :=
  mkDaemon (fun t => if t =? "abc" then Some tx_young else None)
           (Some (Info.mk 10 1000)) (fun _ _ => Some 1200%Z)
           (fun _ _ => None) None.

(** The ledger of [SampleDaemon.w_pending] when the next commit fails and
    the one after succeeds. *)
Definition w_failing_once : World := set_commits [false; true] SampleDaemon.w_pending.

(** The credit for the second output of "abc", and a ledger holding both. *)
Definition cred_abc_1 : Credit.t :=
  Credit.mk 20 "known-addr" "BTC" "Bitcoin" "unconfirmed" "tx received"
            "abc:1" 7.

Definition both : Store :=
  mkStore [SampleDaemon.cred_abc_0; cred_abc_1]
          [HWBalance.mk 100 270 "BTC" "bitcoin" 1].

Definition w_both : World :=
  mkWorld both both [Address.mk "known-addr" 7] [] [] [] [] 0 50.
End SampleBlock.


(** Two credits that stand for the same funds: they differ at most in state
    and reference id. *)
Definition same_funds (c c' : Credit.t) : Prop :=
  Credit.amount c' = Credit.amount c /\
  Credit.address c' = Credit.address c /\
  Credit.currency c' = Credit.currency c /\
  Credit.network c' = Credit.network c /\
  Credit.reference c' = Credit.reference c /\
  Credit.user_id c' = Credit.user_id c.


(** The credit table the block path is about to commit: the one its loop
    leaves in the session when the daemon answers for every unconfirmed
    credit. *)
Definition rechecked (cfg : Config) (client : Daemon) (w : World)
  : list Credit.t :=
  fold_left (recheck_step cfg client) (unconfirmed_credits (credits (ses w)))
            (credits (ses w)).



Module SampleLost.


End SampleLost.

(** * Properties *)

(** ** The balance cache *)

Section LatestRow.
Variable net : string.

(** The place [latest_from] returns is a place of the table. *)
Lemma latest_from_bound keys : forall k best i t,
  latest_from net k keys best = Some (i, t) ->
  (forall j u, best = Some (j, u) -> j < k + length keys) ->
  i < k + length keys.
Proof.
  induction keys as [|[n u] keys IH]; intros k best i t Hl Hb; simpl in *.
  - eapply Hb. exact Hl.
  - replace (k + S (length keys)) with (S k + length keys) by lia.
    eapply IH; [exact Hl|].
    intros j v Hj. destruct (n =? net).
    + destruct best as [[j0 bt]|].
      * specialize (Hb j0 bt eq_refl).
        destruct (bt <? u)%Z; inversion Hj; subst; lia.
      * inversion Hj; subst; lia.
    + specialize (Hb j v Hj). lia.
Qed.

Lemma latest_index_bound keys i :
  latest_index net keys = Some i -> i < length keys.
Proof.
  unfold latest_index.
  destruct (latest_from net 0 keys None) as [[j t]|] eqn:E; [|discriminate].
  intros [= <-].
  apply latest_from_bound in E; [exact E|]. intros; discriminate.
Qed.
End LatestRow.

(** The query returns a row of the table, at its place. *)
Lemma first_hwbalance_lookup (l : list HWBalance.t) i h :
  first_hwbalance l = Some (i, h) ->
  l !! i = Some h /\ latest_index (lower NETWORK) (hwb_key <$> l) = Some i.
Proof.
  unfold first_hwbalance.
  destruct (latest_index _ _) as [j|]; [|discriminate].
  destruct (l !! j) as [x|] eqn:E; [|discriminate].
  intros [= <- <-]. auto.
Qed.

(** A row of the network exists exactly when the query finds one. *)
Lemma first_hwbalance_None_index (l : list HWBalance.t) :
  first_hwbalance l = None ->
  latest_index (lower NETWORK) (hwb_key <$> l) = None.
Proof.
  unfold first_hwbalance.
  destruct (latest_index _ _) as [j|] eqn:E; [|reflexivity].
  pose proof (latest_index_bound _ _ _ E) as Hb.
  rewrite length_fmap in Hb.
  destruct (lookup_lt_is_Some_2 l j Hb) as [x Hx]. rewrite Hx. discriminate.
Qed.

(** Changing a row without touching its network and time leaves the
    answer of the query at the same place. *)
Lemma first_hwbalance_alter (f : HWBalance.t -> HWBalance.t) l i j h :
  (forall x, hwb_key (f x) = hwb_key x) ->
  first_hwbalance l = Some (i, h) ->
  first_hwbalance (alter f j l) =
    Some (i, if decide (j = i) then f h else h).
Proof.
  intros Hf Hq. apply first_hwbalance_lookup in Hq as [Hl Hi].
  unfold first_hwbalance.
  rewrite (list_fmap_alter hwb_key f id)
    by (apply Forall_forall; intros; apply Hf).
  rewrite list_alter_id by reflexivity. rewrite Hi.
  rewrite list_lookup_alter. destruct (decide (j = i)) as [->|Hne].
  - rewrite Hl. reflexivity.
  - rewrite Hl. reflexivity.
Qed.

Lemma alter_as_insert {A} (f : A -> A) (l : list A) i x :
  l !! i = Some x -> alter f i l = <[i := f x]> l.
Proof.
  intros Hl. apply list_eq. intros j.
  rewrite list_lookup_alter, list_lookup_insert.
  pose proof (lookup_lt_Some _ _ _ Hl) as Hlt.
  destruct (decide (i = j)) as [->|Hne].
  - rewrite Hl. simpl. rewrite decide_True; [reflexivity|]. split; [reflexivity|exact Hlt].
  - rewrite decide_False; [reflexivity|]. intros [? _]. contradiction.
Qed.

(** What [adjust_hwbalance] does when a row is found, whatever the commit
    does: with a commit that succeeds the adjusted store is committed, with
    one that fails the session is rolled back and the failure logged. *)
Lemma adjust_hwbalance_run available total w i h :
  is_none available && is_none total = false ->
  first_hwbalance (hwbalances (ses w)) = Some (i, h) ->
  adjust_hwbalance available total w =
    let s' := adjusted_store available total i h (ses w) in
    let w1 := set_commits (tail (commits w)) (set_ses s' w) in
    if next_commit_ok w then Ok tt (set_db s' w1)
    else Ok tt (set_ses (db w)
                  (set_log (log w ++ [LogException (exn_message SQLAlchemyError)]) w1)).
Proof.
  intros Hargs Hq. unfold adjust_hwbalance. rewrite Hargs.
  unfold bind at 1. unfold query_first_hwbalance. rewrite Hq.
  pose proof (first_hwbalance_lookup _ _ _ Hq) as [Hl _].
  destruct available as [a|], total as [x|]; try discriminate;
    unfold bind, hwb_iadd_available, hwb_iadd_total, ret, ses_add_persistent,
      try_except, ses_commit, logger_exception, ses_rollback, ses_flush,
      next_commit_ok, commit_outcome, adjusted_store, adjusted; simpl.
  - rewrite (alter_as_insert _ _ _ _ Hl).
    rewrite (alter_as_insert _ (<[i:=_]> _) i
               (HWBalance.set_available (HWBalance.available h + a) h))
      by (apply list_lookup_insert_eq; eapply lookup_lt_Some; eauto).
    rewrite list_insert_insert_eq.
    unfold HWBalance.set_total, HWBalance.set_available; simpl.
    destruct (commits w) as [|[] ?]; simpl;
      destruct (refs_unique_b (credits (ses w))); reflexivity.
  - rewrite (alter_as_insert _ _ _ _ Hl).
    unfold HWBalance.set_available; simpl. rewrite Z.add_0_r.
    destruct (commits w) as [|[] ?]; simpl;
      destruct (refs_unique_b (credits (ses w))); reflexivity.
  - rewrite (alter_as_insert _ _ _ _ Hl).
    unfold HWBalance.set_total; simpl. rewrite Z.add_0_r.
    destruct (commits w) as [|[] ?]; simpl;
      destruct (refs_unique_b (credits (ses w))); reflexivity.
Qed.

(** C1 (as amended): a call of [adjust_hwbalance] with at least one delta,
    when a latest snapshot exists for the network and the commit succeeds,
    rewrites that latest row where it is: its available and total become
    the previous values plus the deltas (an omitted delta leaves the field
    as it was), its currency, network and time stay, every other row stays,
    and the log of snapshots keeps its length. *)
Theorem adjust_hwbalance_updates_latest_in_place available total w i h :
  is_none available && is_none total = false ->
  first_hwbalance (hwbalances (ses w)) = Some (i, h) ->
  next_commit_ok w = true ->
  exists w',
    adjust_hwbalance available total w = Ok tt w' /\
    hwbalances (ses w') = <[i := adjusted available total h]> (hwbalances (ses w)) /\
    db w' = ses w' /\
    credits (ses w') = credits (ses w) /\
    length (hwbalances (ses w')) = length (hwbalances (ses w)) /\
    (forall j, j <> i -> hwbalances (ses w') !! j = hwbalances (ses w) !! j) /\
    hwbalances (ses w') !! i = Some (adjusted available total h) /\
    HWBalance.currency (adjusted available total h) = HWBalance.currency h /\
    HWBalance.network (adjusted available total h) = HWBalance.network h.
Proof.
  intros Hargs Hq Hc.
  pose proof (first_hwbalance_lookup _ _ _ Hq) as [Hl _].
  eexists. rewrite (adjust_hwbalance_run _ _ _ _ _ Hargs Hq). simpl.
  rewrite Hc. split; [reflexivity|]. simpl.
  repeat split.
  - apply length_insert.
  - intros j Hj. apply list_lookup_insert_ne. congruence.
  - apply list_lookup_insert_eq. eapply lookup_lt_Some; eauto.
Qed.

Lemma adjust_hwbalance_updates_latest_in_place_witness :
  exists w',
    adjust_hwbalance (Some (-5)%Z) (Some (-5)%Z) Sample.w0 = Ok tt w' /\
    hwbalances (ses w') = [HWBalance.mk 95 95 "BTC" "bitcoin" 1].
Proof.
  destruct (adjust_hwbalance_updates_latest_in_place
              (Some (-5)%Z) (Some (-5)%Z) Sample.w0 0
              (HWBalance.mk 100 100 "BTC" "bitcoin" 1)
              eq_refl eq_refl eq_refl) as (w' & Hr & Hh & _).
  exists w'. split; [exact Hr|]. rewrite Hh. reflexivity.
Defined.

(** C1 (as worded) fails: on a log holding the one snapshot
    {available: 100, total: 100}, [adjust(available=-5, total=-5)] leaves a
    log of one row, so no row was appended to it. *)
Lemma adjust_hwbalance_appends_no_row :
  ~ snapshot_appended (Some (-5)%Z) (Some (-5)%Z) Sample.w0
      (world_of (adjust_hwbalance (Some (-5)%Z) (Some (-5)%Z) Sample.w0)).
Proof.
  intros (i & h & new & _ & Happ & _).
  apply (f_equal (@length _)) in Happ. vm_compute in Happ. discriminate.
Qed.

(** C9: when the commit inside [adjust_hwbalance] fails, the call returns
    normally; the failure is logged, the session is rolled back to the
    committed store, which is unchanged, and the commit is tried once. *)
Theorem adjust_hwbalance_commit_failure_dropped available total w i h :
  is_none available && is_none total = false ->
  first_hwbalance (hwbalances (ses w)) = Some (i, h) ->
  next_commit_ok w = false ->
  exists w',
    adjust_hwbalance available total w = Ok tt w' /\
    ses w' = db w /\
    db w' = db w /\
    log w' = log w ++ [LogException (exn_message SQLAlchemyError)] /\
    commits w' = tail (commits w).
Proof.
  intros Hargs Hq Hc.
  eexists. rewrite (adjust_hwbalance_run _ _ _ _ _ Hargs Hq). simpl.
  rewrite Hc. split; [reflexivity|]. simpl. auto.
Qed.

Lemma adjust_hwbalance_commit_failure_dropped_witness :
  exists w',
    adjust_hwbalance (Some (-5)%Z) (Some (-5)%Z) Sample.w_failing = Ok tt w' /\
    ses w' = Sample.seeded /\ db w' = Sample.seeded /\ commits w' = [].
Proof.
  destruct (adjust_hwbalance_commit_failure_dropped
              (Some (-5)%Z) (Some (-5)%Z) Sample.w_failing 0
              (HWBalance.mk 100 100 "BTC" "bitcoin" 1)
              eq_refl eq_refl eq_refl) as (w' & Hr & Hs & Hd & _ & Hc).
  exists w'. repeat split; assumption.
Defined.

(** With both deltas omitted the call does nothing. *)
Lemma adjust_hwbalance_noop w : adjust_hwbalance None None w = Ok tt w.
Proof. reflexivity. Qed.

(** Without a snapshot for the network, the first [+=] fails on [None]. *)
Lemma adjust_hwbalance_unseeded available total w :
  is_none available && is_none total = false ->
  first_hwbalance (hwbalances (ses w)) = None ->
  adjust_hwbalance available total w = Raise AttributeError w.
Proof.
  intros Hargs Hq. unfold adjust_hwbalance. rewrite Hargs.
  unfold bind at 1. unfold query_first_hwbalance. rewrite Hq.
  destruct available, total; try discriminate; reflexivity.
Qed.

(** ** The receive processor *)

Lemma credits_with_ref_snoc r cs c :
  credits_with_ref r (cs ++ [c]) =
    credits_with_ref r cs ++ (if decide (Credit.ref_id c = r) then [c] else []).
Proof.
  unfold credits_with_ref. rewrite filter_app. reflexivity.
Qed.

Lemma unique_ref_ids_snoc cs c :
  unique_ref_ids cs ->
  credits_with_ref (Credit.ref_id c) cs = [] ->
  unique_ref_ids (cs ++ [c]).
Proof.
  intros Hu Hfresh r. rewrite credits_with_ref_snoc.
  destruct (decide (Credit.ref_id c = r)) as [<-|Hne].
  - rewrite Hfresh. simpl. lia.
  - rewrite app_nil_r. apply Hu.
Qed.

(** The database's check and the rule of one Credit per reference id. *)
Lemma existsb_ref_false r (cs : list Credit.t) :
  existsb (fun c' => Credit.ref_id c' =? r) cs = false <->
  credits_with_ref r cs = [].
Proof.
  induction cs as [|x cs IH]; simpl; [tauto|].
  unfold credits_with_ref in *. rewrite filter_cons.
  destruct (decide (Credit.ref_id x = r)) as [Hx|Hx].
  - apply String.eqb_eq in Hx. rewrite Hx. simpl. split; discriminate.
  - apply String.eqb_neq in Hx. rewrite Hx. simpl. exact IH.
Qed.

Lemma refs_unique_b_spec (cs : list Credit.t) :
  refs_unique_b cs = true <-> unique_ref_ids cs.
Proof.
  induction cs as [|x cs IH]; simpl.
  - split; [|reflexivity]. intros _ r. simpl. lia.
  - rewrite andb_true_iff, negb_true_iff, existsb_ref_false, IH.
    unfold unique_ref_ids, credits_with_ref. split.
    + intros [Hx Hu] r. rewrite filter_cons.
      destruct (decide (Credit.ref_id x = r)) as [<-|Hne]; [|apply Hu].
      unfold credits_with_ref in Hx. rewrite Hx. simpl. lia.
    + intros Hu. split.
      * specialize (Hu (Credit.ref_id x)). rewrite filter_cons in Hu.
        rewrite decide_True in Hu by reflexivity. simpl in Hu.
        destruct (filter _ cs); [reflexivity|simpl in Hu; lia].
      * intros r. specialize (Hu r). rewrite filter_cons in Hu.
        destruct (decide _); simpl in Hu; lia.
Qed.

Lemma refs_unique_b_snoc (cs : list Credit.t) c :
  credits_with_ref (Credit.ref_id c) cs = [] ->
  refs_unique_b (cs ++ [c]) = refs_unique_b cs.
Proof.
  intros Hfresh.
  destruct (refs_unique_b cs) eqn:Hu.
  - apply refs_unique_b_spec. apply unique_ref_ids_snoc; [|exact Hfresh].
    apply refs_unique_b_spec. exact Hu.
  - destruct (refs_unique_b (cs ++ [c])) eqn:Hu'; [|reflexivity].
    apply refs_unique_b_spec in Hu'.
    assert (Hcs : unique_ref_ids cs).
    { intros r. specialize (Hu' r). rewrite credits_with_ref_snoc in Hu'.
      rewrite length_app in Hu'. lia. }
    apply refs_unique_b_spec in Hcs. congruence.
Qed.

(** A credit under a reference id that is not in use does not change
    whether the next commit succeeds. *)
Lemma next_commit_ok_fresh_credit w w1 c :
  commits w1 = commits w ->
  credits (ses w1) = credits (ses w) ++ [c] ->
  credits_with_ref (Credit.ref_id c) (credits (ses w)) = [] ->
  next_commit_ok w1 = next_commit_ok w.
Proof.
  intros Hc Hs Hfresh. unfold next_commit_ok, commit_outcome.
  rewrite Hc, Hs, refs_unique_b_snoc by exact Hfresh. reflexivity.
Qed.

Section ReceiveProcessor.
Variable cfg : Config.

(** A reference id that is known: the call logs and returns. *)
Lemma process_receive_known txid details confirmed w :
  credits_with_ref txid (credits (ses w)) <> [] ->
  process_receive cfg txid details confirmed w =
    Ok tt (logged (LogInfo "txid already known. returning.") w).
Proof.
  intros Hk. unfold process_receive.
  destruct (credits_with_ref txid (credits (ses w))); [contradiction|].
  reflexivity.
Qed.

(** An address that is not known: the call logs and returns. *)
Lemma process_receive_unknown_address txid details confirmed w :
  credits_with_ref txid (credits (ses w)) = [] ->
  first_address (Detail.address details) (addresses w) = None ->
  process_receive cfg txid details confirmed w =
    Ok tt (logged (LogWarning "address not known. returning.") w).
Proof.
  intros Hn Ha. unfold process_receive. rewrite Hn, Ha. reflexivity.
Qed.

(** A new reference id at a known address: the Credit is added to the
    session, then the balance is adjusted. *)
Lemma process_receive_new txid details confirmed w addy cur rest :
  credits_with_ref txid (credits (ses w)) = [] ->
  first_address (Detail.address details) (addresses w) = Some addy ->
  CURRENCIES cfg = cur :: rest ->
  process_receive cfg txid details confirmed w =
    adjust_hwbalance None (Some (Detail.amount details))
      (set_ses (mkStore (credits (ses w)
                           ++ [credit_for txid details confirmed cur addy])
                        (hwbalances (ses w)))
         (logged (LogInfo ("crediting txid " ++ txid)) w)).
Proof.
  intros Hn Ha Hc. unfold process_receive. rewrite Hn, Ha. simpl.
  unfold bind at 1. unfold logger_info.
  unfold bind at 1. unfold CURRENCIES_0. rewrite Hc. unfold ret.
  unfold bind at 1. unfold process_credit, ses_add_new_credit.
  destruct confirmed; reflexivity.
Qed.

(** The invariant of the credit table holds after a call, however the
    call ends. *)
Lemma process_receive_unique txid details confirmed w :
  unique_ref_ids (credits (ses w)) ->
  unique_ref_ids (credits (db w)) ->
  let w' := world_of (process_receive cfg txid details confirmed w) in
  unique_ref_ids (credits (ses w')) /\ unique_ref_ids (credits (db w')).
Proof.
  intros Hs Hd.
  destruct (credits_with_ref txid (credits (ses w))) as [|c0 l0] eqn:Hn.
  2:{ rewrite process_receive_known by (rewrite Hn; discriminate). auto. }
  destruct (first_address (Detail.address details) (addresses w)) as [addy|] eqn:Ha.
  2:{ rewrite process_receive_unknown_address by assumption. auto. }
  destruct (CURRENCIES cfg) as [|cur rest] eqn:Hc.
  { unfold process_receive. rewrite Hn, Ha. simpl.
    unfold bind, logger_info, CURRENCIES_0. rewrite Hc. simpl. auto. }
  rewrite (process_receive_new _ _ _ _ _ _ _ Hn Ha Hc).
  set (c := credit_for txid details confirmed cur addy).
  assert (Hs' : unique_ref_ids (credits (ses w) ++ [c]))
    by (apply unique_ref_ids_snoc; assumption).
  match goal with |- context [adjust_hwbalance _ _ ?x] => set (w1 := x) end.
  destruct (first_hwbalance (hwbalances (ses w1))) as [[i h]|] eqn:Hq.
  - rewrite (adjust_hwbalance_run None (Some (Detail.amount details)) _ _ _
               eq_refl Hq).
    destruct (next_commit_ok w1); simpl; auto.
  - rewrite (adjust_hwbalance_unseeded None (Some (Detail.amount details)) _
               eq_refl Hq).
    simpl. auto.
Qed.
End ReceiveProcessor.

(** Replacing the latest row by one of the same network and time leaves it
    the latest row. *)
Lemma first_hwbalance_insert (l : list HWBalance.t) i h h' :
  first_hwbalance l = Some (i, h) ->
  hwb_key h' = hwb_key h ->
  first_hwbalance (<[i := h']> l) = Some (i, h').
Proof.
  intros Hq Hk. apply first_hwbalance_lookup in Hq as [Hl Hi].
  unfold first_hwbalance. rewrite list_fmap_insert, Hk.
  rewrite list_insert_id by (rewrite list_lookup_fmap, Hl; reflexivity).
  rewrite Hi, list_lookup_insert_eq by (eapply lookup_lt_Some; eauto).
  reflexivity.
Qed.

Lemma get_balance_first w i h :
  first_hwbalance (hwbalances (ses w)) = Some (i, h) ->
  get_balance w = Ok (mkBalanceDict (HWBalance.total h) (HWBalance.available h)) w.
Proof.
  intros Hq. unfold get_balance, bind, query_first_hwbalance. rewrite Hq.
  reflexivity.
Qed.

(** C6: a call of [process_receive] on a new reference id at a known
    address, with a snapshot in place and a commit that succeeds, returns
    normally and leaves the balance cache with its total increased by the
    amount received and its available as it was. *)
Theorem process_receive_adds_to_total cfg txid details confirmed w addy cur rest i h :
  credits_with_ref txid (credits (ses w)) = [] ->
  first_address (Detail.address details) (addresses w) = Some addy ->
  CURRENCIES cfg = cur :: rest ->
  first_hwbalance (hwbalances (ses w)) = Some (i, h) ->
  next_commit_ok w = true ->
  exists w',
    process_receive cfg txid details confirmed w = Ok tt w' /\
    get_balance w =
      Ok (mkBalanceDict (HWBalance.total h) (HWBalance.available h)) w /\
    get_balance w' =
      Ok (mkBalanceDict (HWBalance.total h + Detail.amount details)
                        (HWBalance.available h)) w' /\
    db w' = ses w'.
Proof.
  intros Hn Ha Hc Hq Hok.
  rewrite (process_receive_new _ _ _ _ _ _ _ _ Hn Ha Hc).
  match goal with |- context [adjust_hwbalance _ _ ?x] => set (w1 := x) end.
  assert (Hq1 : first_hwbalance (hwbalances (ses w1)) = Some (i, h)) by exact Hq.
  rewrite (adjust_hwbalance_run None (Some (Detail.amount details)) _ _ _
             eq_refl Hq1).
  simpl.
  replace (next_commit_ok w1) with true
    by (symmetry; rewrite <- Hok;
        apply (next_commit_ok_fresh_credit w w1 _ eq_refl eq_refl Hn)).
  eexists. split; [reflexivity|].
  split; [apply (get_balance_first _ _ _ Hq)|].
  split; [|reflexivity].
  erewrite get_balance_first.
  2:{ simpl. apply (first_hwbalance_insert _ _ h); [exact Hq|reflexivity]. }
  simpl. rewrite Z.add_0_r. reflexivity.
Qed.

Lemma process_receive_adds_to_total_witness :
  exists w',
    process_receive Sample.cfg "abc:0" (Detail.mk "known-addr" 150 "receive")
      false Sample.w0 = Ok tt w' /\
    get_balance w' = Ok (mkBalanceDict 250 100) w'.
Proof.
  destruct (process_receive_adds_to_total Sample.cfg "abc:0"
              (Detail.mk "known-addr" 150 "receive") false Sample.w0
              (Address.mk "known-addr" 7) "BTC" [] 0
              (HWBalance.mk 100 100 "BTC" "bitcoin" 1)
              eq_refl eq_refl eq_refl eq_refl eq_refl)
    as (w' & Hr & _ & Hb & _).
  exists w'. split; [exact Hr|exact Hb].
Defined.

(** C2: [process_receive] is idempotent on its reference id.
    - When a Credit with the reference id exists, the call logs and
      returns: no credit is created, no balance adjusted.
    - A call keeps the invariant that at most one Credit exists per
      reference id, however it ends.
    - Two calls with the same new reference id at a known address (with a
      snapshot in place and a commit that succeeds) create exactly one
      Credit: the first creates it, the second only logs. *)
Theorem process_receive_idempotent cfg txid :
  (forall details confirmed w,
   credits_with_ref txid (credits (ses w)) <> [] ->
   process_receive cfg txid details confirmed w =
     Ok tt (logged (LogInfo "txid already known. returning.") w)) /\
  (forall details confirmed w,
   unique_ref_ids (credits (ses w)) -> unique_ref_ids (credits (db w)) ->
   let w' := world_of (process_receive cfg txid details confirmed w) in
   unique_ref_ids (credits (ses w')) /\ unique_ref_ids (credits (db w'))) /\
  (forall details confirmed w addy cur rest i h details' confirmed',
   credits_with_ref txid (credits (ses w)) = [] ->
   first_address (Detail.address details) (addresses w) = Some addy ->
   CURRENCIES cfg = cur :: rest ->
   first_hwbalance (hwbalances (ses w)) = Some (i, h) ->
   next_commit_ok w = true ->
   exists w1,
     process_receive cfg txid details confirmed w = Ok tt w1 /\
     credits (ses w1) =
       credits (ses w) ++ [credit_for txid details confirmed cur addy] /\
     credits (db w1) = credits (ses w1) /\
     process_receive cfg txid details' confirmed' w1 =
       Ok tt (logged (LogInfo "txid already known. returning.") w1) /\
     credits_with_ref txid (credits (ses w1)) =
       [credit_for txid details confirmed cur addy]).
Proof.
  split; [intros; apply process_receive_known; assumption|].
  split; [intros; apply process_receive_unique; assumption|].
  intros details confirmed w addy cur rest i h details' confirmed'
    Hn Ha Hc Hq Hok.
  rewrite (process_receive_new _ _ _ _ _ _ _ _ Hn Ha Hc).
  match goal with |- context [adjust_hwbalance _ _ ?x] => set (w1 := x) end.
  assert (Hq1 : first_hwbalance (hwbalances (ses w1)) = Some (i, h)) by exact Hq.
  rewrite (adjust_hwbalance_run None (Some (Detail.amount details)) _ _ _
             eq_refl Hq1).
  simpl.
  replace (next_commit_ok w1) with true
    by (symmetry; rewrite <- Hok;
        apply (next_commit_ok_fresh_credit w w1 _ eq_refl eq_refl Hn)).
  eexists. split; [reflexivity|]. simpl.
  assert (Hone : credits_with_ref txid
            (credits (ses w) ++ [credit_for txid details confirmed cur addy]) =
          [credit_for txid details confirmed cur addy]).
  { rewrite credits_with_ref_snoc, Hn. simpl.
    rewrite decide_True by reflexivity. reflexivity. }
  repeat split.
  - apply process_receive_known. simpl. rewrite Hone. discriminate.
  - exact Hone.
Qed.

Lemma process_receive_idempotent_witness :
  exists w1,
    process_receive Sample.cfg "abc:0" (Detail.mk "known-addr" 150 "receive")
      false Sample.w0 = Ok tt w1 /\
    process_receive Sample.cfg "abc:0" (Detail.mk "known-addr" 150 "receive")
      false w1 = Ok tt (logged (LogInfo "txid already known. returning.") w1) /\
    process_receive Sample.cfg "abc:0" (Detail.mk "known-addr" 150 "receive")
      true w1 = Ok tt (logged (LogInfo "txid already known. returning.") w1) /\
    unique_ref_ids (credits (ses w1)) /\
    length (credits (ses w1)) = 1.
Proof.
  destruct (process_receive_idempotent Sample.cfg "abc:0")
    as (Hknown & Hunique & Htwice).
  destruct (Htwice (Detail.mk "known-addr" 150 "receive") false Sample.w0
              (Address.mk "known-addr" 7) "BTC" [] 0
              (HWBalance.mk 100 100 "BTC" "bitcoin" 1)
              (Detail.mk "known-addr" 150 "receive") false
              eq_refl eq_refl eq_refl eq_refl eq_refl)
    as (w1 & Hr & Hcs & _ & Hr2 & Hone).
  exists w1. split; [exact Hr|]. split; [exact Hr2|].
  split; [apply Hknown; rewrite Hone; discriminate|].
  split; [|rewrite Hcs; reflexivity].
  assert (Hu0 : unique_ref_ids (credits (ses Sample.w0)))
    by (intros r; simpl; lia).
  pose proof (Hunique (Detail.mk "known-addr" 150 "receive") false Sample.w0
                Hu0 Hu0) as Hu.
  rewrite Hr in Hu. exact (proj1 Hu).
Defined.

(** ** Outgoing sends *)

(** C8: [send_to_address] calls the daemon's [sendtoaddress] first,
    whatever the balance cache holds; when the daemon answers with a
    transaction id (and a snapshot is in place and the commit succeeds),
    the call returns that id and the latest snapshot has both its available
    and its total decreased by the amount sent. *)
Theorem send_to_address_decrements_both client address amount w :
  rpc (world_of (send_to_address client address amount w)) =
    rpc w ++ [SendToAddress address amount] /\
  (forall txid i h,
   sendtoaddress client address amount = Some txid ->
   first_hwbalance (hwbalances (ses w)) = Some (i, h) ->
   next_commit_ok w = true ->
   exists w',
     send_to_address client address amount w = Ok txid w' /\
     get_balance w' =
       Ok (mkBalanceDict (HWBalance.total h - amount)
                         (HWBalance.available h - amount)) w' /\
     hwbalances (ses w') =
       <[i := adjusted (Some (- amount)%Z) (Some (- amount)%Z) h]>
         (hwbalances (ses w)) /\
     db w' = ses w').
Proof.
  unfold send_to_address, bind at 1, client_sendtoaddress, rpc_call.
  destruct (sendtoaddress client address amount) as [t|] eqn:Hsend.
  2:{ split; [reflexivity|]. intros; discriminate. }
  set (w1 := set_rpc (rpc w ++ [SendToAddress address amount]) w).
  unfold bind, ret.
  split.
  - destruct (first_hwbalance (hwbalances (ses w1))) as [[i h]|] eqn:Hq.
    + rewrite (adjust_hwbalance_run (Some (- amount)%Z) (Some (- amount)%Z)
                 w1 _ _ eq_refl Hq).
      simpl. destruct (next_commit_ok w1); reflexivity.
    + rewrite (adjust_hwbalance_unseeded (Some (- amount)%Z) (Some (- amount)%Z)
                 w1 eq_refl Hq).
      reflexivity.
  - intros txid i h [= <-] Hq Hok. fold w1.
    assert (Hq1 : first_hwbalance (hwbalances (ses w1)) = Some (i, h)) by exact Hq.
    rewrite (adjust_hwbalance_run (Some (- amount)%Z) (Some (- amount)%Z)
               w1 _ _ eq_refl Hq1).
    simpl. replace (next_commit_ok w1) with true by (symmetry; exact Hok).
    eexists. split; [reflexivity|].
    split; [|split; reflexivity].
    erewrite get_balance_first.
    2:{ simpl. apply (first_hwbalance_insert _ _ h); [exact Hq|reflexivity]. }
    simpl. rewrite !Z.add_opp_r. reflexivity.
Qed.

(** The amount sent here exceeds the balance; the daemon is called all the
    same. *)
Lemma send_to_address_decrements_both_witness :
  exists w',
    send_to_address SampleDaemon.client "dest" 500 Sample.w0 = Ok "sent-txid" w' /\
    get_balance w' = Ok (mkBalanceDict (-400) (-400)) w' /\
    rpc w' = [SendToAddress "dest" 500%Z].
Proof.
  destruct (send_to_address_decrements_both SampleDaemon.client "dest" 500 Sample.w0)
    as (Hrpc & Hsend).
  destruct (Hsend "sent-txid" 0 (HWBalance.mk 100 100 "BTC" "bitcoin" 1)
              eq_refl eq_refl eq_refl) as (w' & Hr & Hb & _).
  exists w'. split; [exact Hr|]. split; [exact Hb|].
  rewrite Hr in Hrpc. exact Hrpc.
Defined.

(** ** The dispatcher: transaction notifications *)

Section Outputs.
Variable cfg : Config.
Variables (txid : string) (confirmed : bool).

(** An output that is neither a send nor a receive changes nothing. *)
Lemma handle_output_other pput w :
  is_send_or_receive pput = false ->
  handle_output cfg txid confirmed pput w = Ok tt w.
Proof.
  destruct pput as [p put]. unfold is_send_or_receive, handle_output. simpl.
  intros H. apply orb_false_elim in H as [-> ->]. reflexivity.
Qed.

(** The loop over the outputs is the loop over the sends and receives
    among them, each under the index it has in the transaction. *)
Lemma outputs_loop_filter (outputs : list (nat * Detail.t)) : forall w,
  for_each (handle_output cfg txid confirmed) outputs w =
  for_each (handle_output cfg txid confirmed)
           (List.filter is_send_or_receive outputs) w.
Proof.
  induction outputs as [|pput outputs IH]; intros w; [reflexivity|].
  simpl. destruct (is_send_or_receive pput) eqn:E.
  - simpl. unfold bind.
    destruct (handle_output cfg txid confirmed pput w); [apply IH|reflexivity].
  - unfold bind. rewrite (handle_output_other _ _ E). apply IH.
Qed.
End Outputs.

(** C10: on a transaction notification, an output whose category is
    neither "send" nor "receive" is skipped: handling it returns with the
    world as it was (no [confirm_send], no credit, no balance change), and
    the whole notification does what it would do with these outputs left
    out and the others under their indices. *)
Theorem other_categories_skipped cfg client data w :
  (forall p put confirmed w0,
   Detail.category put <> "send" ->
   Detail.category put <> "receive" ->
   handle_output cfg data confirmed (p, put) w0 = Ok tt w0) /\
  main cfg client "transaction" data w =
    (txd <- client_gettransaction client data ;;
     for_each (handle_output cfg data (CONFS cfg <=? Txd.confirmations txd)%Z)
       (List.filter is_send_or_receive (enumerate (Txd.details txd)))) w.
Proof.
  split.
  - intros p put confirmed w0 Hs Hr. apply handle_output_other.
    unfold is_send_or_receive. simpl.
    apply String.eqb_neq in Hs, Hr. rewrite Hs, Hr. reflexivity.
  - unfold main. simpl. unfold bind.
    destruct (client_gettransaction client data w); [|reflexivity].
    apply outputs_loop_filter.
Qed.

Lemma other_categories_skipped_witness :
  handle_output Sample.cfg "abc" false (0, Detail.mk "miner" 5000 "generate") Sample.w0
    = Ok tt Sample.w0 /\
  handle_output Sample.cfg "abc" false (1, Detail.mk "" (-3) "fee") Sample.w0
    = Ok tt Sample.w0.
Proof.
  destruct (other_categories_skipped Sample.cfg SampleDaemon.client "abc" Sample.w0)
    as (Hskip & _).
  split; apply Hskip; discriminate.
Defined.

(** ** The dispatcher: block notifications *)

(** A height at or below the watermark: the call returns after [getinfo]. *)
Lemma main_block_stale cfg client data w info :
  getinfo client = Some info ->
  (Info.blocks info <= lastblock w)%Z ->
  main cfg client "block" data w = Ok tt (set_rpc (rpc w ++ [GetInfo]) w).
Proof.
  intros Hinfo Hle. unfold main. simpl.
  unfold bind at 1, client_getinfo, rpc_call. rewrite Hinfo. simpl.
  apply Z.leb_le in Hle. rewrite Hle. reflexivity.
Qed.

(** C7: a block notification for which the daemon reports a height at or
    below the last height seen returns at once: apart from the record of
    the [getinfo] call, the world is as it was, so no Credit is changed and
    no snapshot is added. *)
Theorem stale_block_ignored cfg client data w info :
  getinfo client = Some info ->
  (Info.blocks info <= lastblock w)%Z ->
  main cfg client "block" data w = Ok tt (set_rpc (rpc w ++ [GetInfo]) w) /\
  let w' := world_of (main cfg client "block" data w) in
  ses w' = ses w /\ db w' = db w /\ lastblock w' = lastblock w /\
  log w' = log w /\ commits w' = commits w.
Proof.
  intros Hinfo Hle.
  rewrite (main_block_stale cfg client data w info Hinfo Hle).
  split; [reflexivity|]. simpl. auto.
Qed.

Lemma stale_block_ignored_witness :
  main Sample.cfg SampleDaemon.client "block" "" SampleDaemon.w_seen
    = Ok tt (set_rpc [GetInfo] SampleDaemon.w_seen).
Proof.
  exact (proj1 (stale_block_ignored Sample.cfg SampleDaemon.client ""
                  SampleDaemon.w_seen (Info.mk 10 1000) eq_refl
                  ltac:(simpl; lia))).
Defined.

(** ** The address validator *)

(** The value of [validate_address], case by case. *)
Lemma validate_address_cases is_address_valid address network :
  validate_address is_address_valid address network =
    Returned
      match is_address_valid address NETCODES with
      | Returned (Some netcode) =>
          match network with
          | Some n => netcode =? n
          | None => true
          end
      | _ => false
      end.
Proof.
  unfold validate_address.
  destruct (is_address_valid address NETCODES) as [[nc|]|]; try reflexivity.
  destruct network as [n|]; [|reflexivity].
  simpl. destruct (nc =? n); reflexivity.
Qed.

(** C5: [validate_address] returns a boolean on every input and never
    raises.  The boolean is true exactly when the address decodes to a
    netcode among the supported ones and, when a network is asked for, that
    netcode is the one asked for; a decoding that raises gives false. *)
Theorem validate_address_fail_closed is_address_valid address network :
  exists b,
    validate_address is_address_valid address network = Returned b /\
    (b = true <->
     exists netcode,
       is_address_valid address NETCODES = Returned (Some netcode) /\
       (forall n, network = Some n -> netcode = n)) /\
    (is_address_valid address NETCODES = Raised -> b = false) /\
    (is_address_valid address NETCODES = Returned None -> b = false).
Proof.
  rewrite validate_address_cases. eexists. split; [reflexivity|].
  destruct (is_address_valid address NETCODES) as [[nc|]|] eqn:E.
  - repeat split; try discriminate.
    + intros Hb. exists nc. split; [reflexivity|].
      intros n ->. apply String.eqb_eq. exact Hb.
    + intros (nc' & [= <-] & Hn).
      destruct network as [n|]; [|reflexivity].
      apply String.eqb_eq. apply Hn. reflexivity.
  - repeat split; try discriminate.
    intros (nc' & Hd & _). discriminate.
  - repeat split; try discriminate.
    intros (nc' & Hd & _). discriminate.
Qed.

Lemma validate_address_fail_closed_witness :
  validate_address SampleDecoder.is_address_valid "1abc" (Some "BTC") = Returned true /\
  validate_address SampleDecoder.is_address_valid "1abc" (Some "XTN") = Returned false /\
  validate_address SampleDecoder.is_address_valid "!abc" None = Returned false.
Proof.
  split; [|split].
  - destruct (validate_address_fail_closed SampleDecoder.is_address_valid
                "1abc" (Some "BTC")) as (b & Hr & Hiff & _).
    rewrite Hr. f_equal. apply Hiff. exists "BTC". split; [reflexivity|].
    intros n [= <-]. reflexivity.
  - reflexivity.
  - destruct (validate_address_fail_closed SampleDecoder.is_address_valid
                "!abc" None) as (b & Hr & _ & Hraise & _).
    rewrite Hr. f_equal. apply Hraise. reflexivity.
Defined.

(** ** The dispatcher: confirmation of credits *)

Lemma set_ses_same w : set_ses (mkStore (credits (ses w)) (hwbalances (ses w))) w = w.
Proof. destruct w as [[] ? ? ? ? ? ? ? ?]. reflexivity. Qed.

(** The places of an enumeration. *)
Lemma enumerate_from_In {A} (l : list A) : forall k i x,
  In (i, x) (enumerate_from k l) <-> k <= i /\ l !! (i - k) = Some x.
Proof.
  induction l as [|y l IH]; intros k i x; simpl.
  - split; [contradiction|]. intros [_ H]. discriminate.
  - rewrite IH. split.
    + intros [[= <- <-]|[Hle Hl]].
      * split; [lia|]. rewrite Nat.sub_diag. reflexivity.
      * split; [lia|]. replace (i - k) with (S (i - S k)) by lia. exact Hl.
    + intros [Hle Hl]. destruct (decide (i = k)) as [->|Hne].
      * left. rewrite Nat.sub_diag in Hl. simpl in Hl. congruence.
      * right. split; [lia|].
        replace (i - k) with (S (i - S k)) in Hl by lia. exact Hl.
Qed.

Lemma enumerate_from_NoDup {A} (f : nat * A -> bool) (l : list A) : forall k,
  NoDup (map fst (List.filter f (enumerate_from k l))).
Proof.
  induction l as [|y l IH]; intros k; simpl; [constructor|].
  destruct (f (k, y)); [|apply IH].
  simpl. constructor; [|apply IH].
  rewrite list_elem_of_In, in_map_iff. intros ([i x] & Hi & Hin).
  simpl in Hi. subst i.
  apply filter_In in Hin as [Hin _].
  apply enumerate_from_In in Hin as [Hle _]. lia.
Qed.

Lemma unconfirmed_credits_In cs i c :
  In (i, c) (unconfirmed_credits cs) <->
  cs !! i = Some c /\ is_unconfirmed c = true.
Proof.
  unfold unconfirmed_credits, rows, enumerate.
  rewrite filter_In, enumerate_from_In. simpl.
  rewrite Nat.sub_0_r. intuition lia.
Qed.

(** The inner loop leaves the state of the credit as it is. *)
Lemma set_ref_ids_state txid outputs : forall c,
  Credit.transaction_state (set_ref_ids txid outputs c) = Credit.transaction_state c.
Proof.
  unfold set_ref_ids.
  induction outputs as [|pput outputs IH]; intros c; simpl; [reflexivity|].
  rewrite IH. reflexivity.
Qed.

Lemma completed_state txd c :
  Credit.transaction_state (completed txd c) = "complete".
Proof. unfold completed. rewrite set_ref_ids_state. reflexivity. Qed.

(** The reference id the inner loop leaves: the one of the last output. *)
Lemma set_ref_ids_last txid outputs pput c :
  Credit.ref_id (set_ref_ids txid (outputs ++ [pput]) c) = ref_of txid (fst pput).
Proof.
  unfold set_ref_ids. rewrite fold_left_app. reflexivity.
Qed.

(** The inner loop, run on the session. *)
Lemma set_ref_id_loop i txid outputs : forall w,
  for_each (fun pput => cred_set_ref_id i (ref_of txid (fst pput))) outputs w =
    Ok tt (set_ses (mkStore (alter (set_ref_ids txid outputs) i (credits (ses w)))
                            (hwbalances (ses w))) w).
Proof.
  induction outputs as [|pput outputs IH]; intros w; simpl.
  - unfold ret, set_ref_ids. simpl.
    rewrite list_alter_id by reflexivity. rewrite set_ses_same. reflexivity.
  - unfold bind, cred_set_ref_id. rewrite IH. simpl.
    rewrite list_alter_alter_eq. reflexivity.
Qed.

Lemma for_each_cons {A} (body : A -> M unit) x l w :
  for_each body (x :: l) w =
    match body x w with
    | Ok _ w' => for_each body l w'
    | Raise e w' => Raise e w'
    end.
Proof. reflexivity. Qed.

Section BlockPath.
Variable cfg : Config.
Variable client : Daemon.

(** One pass of the loop over the unconfirmed credits. *)
Lemma recheck_credit_run i cred w :
  recheck_credit cfg client (i, cred) w =
    let w1 := set_rpc (rpc w ++ [GetTransaction (credit_txid cred)]) w in
    match gettransaction client (credit_txid cred) with
    | Some txd =>
        Ok tt (set_ses (mkStore (recheck_step cfg client (credits (ses w)) (i, cred))
                                (hwbalances (ses w))) w1)
    | None => Raise JSONRPCException w1
    end.
Proof.
  unfold recheck_credit, recheck_step, bind at 1, client_gettransaction, rpc_call.
  fold (credit_txid cred). simpl.
  destruct (gettransaction client (credit_txid cred)) as [txd|]; [|reflexivity].
  destruct (CONFS cfg <=? Txd.confirmations txd)%Z.
  - unfold bind, cred_set_transaction_state, ses_add_persistent, ret.
    rewrite set_ref_id_loop. simpl.
    rewrite list_alter_alter_eq. reflexivity.
  - unfold ret.
    rewrite <- (set_ses_same (set_rpc _ w)) at 1. reflexivity.
Qed.

Lemma recheck_step_length cs icred :
  length (recheck_step cfg client cs icred) = length cs.
Proof.
  unfold recheck_step.
  destruct (gettransaction client _) as [txd|]; [|reflexivity].
  destruct (_ <=? _)%Z; [apply length_alter|reflexivity].
Qed.

Lemma recheck_step_other cs icred j :
  j <> fst icred -> recheck_step cfg client cs icred !! j = cs !! j.
Proof.
  intros Hne. unfold recheck_step.
  destruct (gettransaction client _) as [txd|]; [|reflexivity].
  destruct (_ <=? _)%Z; [|reflexivity].
  apply list_lookup_alter_ne. congruence.
Qed.

Lemma recheck_loop_frame pending : forall w,
  loop_frame (map fst pending) w
    (world_of (for_each (recheck_credit cfg client) pending w)).
Proof.
  induction pending as [|[i cred] pending IH]; intros w.
  - simpl. unfold loop_frame. auto 10.
  - rewrite for_each_cons, recheck_credit_run. cbv zeta.
    destruct (gettransaction client (credit_txid cred)) as [txd|] eqn:Htx.
    + match goal with |- context [for_each _ _ ?x] => set (w1 := x) end.
      destruct (IH w1) as (Hdb & Hhw & Hlog & Hcm & Hlb & Hlen & Hother).
      unfold loop_frame. rewrite Hdb, Hhw, Hlog, Hcm, Hlb, Hlen.
      subst w1. simpl. rewrite recheck_step_length.
      repeat split. intros j Hj. simpl in Hj.
      rewrite Hother by tauto. simpl.
      apply recheck_step_other. simpl. intros ->. tauto.
    + simpl. unfold loop_frame. simpl. auto 10.
Qed.

(** When the daemon answers for every credit of the loop, the loop
    returns, and the credit table is the one the steps give. *)
Lemma recheck_loop_ok pending : forall w,
  (forall ic, In ic pending ->
              is_Some (gettransaction client (credit_txid (snd ic)))) ->
  exists w',
    for_each (recheck_credit cfg client) pending w = Ok tt w' /\
    credits (ses w') = fold_left (recheck_step cfg client) pending (credits (ses w)).
Proof.
  induction pending as [|[i cred] pending IH]; intros w Hall.
  - exists w. split; reflexivity.
  - rewrite for_each_cons, recheck_credit_run. cbv zeta.
    destruct (Hall (i, cred) (or_introl eq_refl)) as [txd Htx].
    simpl in Htx. rewrite Htx.
    match goal with |- context [for_each _ _ ?x] => set (w1 := x) end.
    destruct (IH w1) as (w' & Hrun & Hcs).
    { intros ic Hic. apply Hall. right. exact Hic. }
    exists w'. split; [exact Hrun|]. rewrite Hcs. reflexivity.
Qed.

Lemma recheck_fold_other pending : forall cs j,
  ~ In j (map fst pending) ->
  fold_left (recheck_step cfg client) pending cs !! j = cs !! j.
Proof.
  induction pending as [|ic pending IH]; intros cs j Hj; [reflexivity|].
  simpl in *. rewrite IH by tauto. apply recheck_step_other. intros ->. tauto.
Qed.

(** A credit of the loop whose transaction has enough confirmations is
    completed by the loop. *)
Lemma recheck_fold_completes pending : forall cs i c txd,
  NoDup (map fst pending) ->
  In (i, c) pending ->
  cs !! i = Some c ->
  gettransaction client (credit_txid c) = Some txd ->
  (CONFS cfg <= Txd.confirmations txd)%Z ->
  fold_left (recheck_step cfg client) pending cs !! i = Some (completed txd c).
Proof.
  induction pending as [|[j cj] pending IH]; intros cs i c txd Hnd Hin Hl Htx Hc;
    [contradiction|].
  simpl in Hnd. apply NoDup_cons in Hnd as [Hj Hnd].
  rewrite list_elem_of_In in Hj.
  simpl. destruct Hin as [[= -> ->]|Hin].
  - rewrite recheck_fold_other by exact Hj.
    unfold recheck_step. simpl. rewrite Htx.
    apply Z.leb_le in Hc. rewrite Hc.
    rewrite list_lookup_alter_eq, Hl. reflexivity.
  - apply IH; try assumption.
    rewrite recheck_step_other; [exact Hl|].
    simpl. intros ->. apply Hj. apply in_map_iff. exists (j, c). auto.
Qed.
End BlockPath.

Lemma commit_logged_run w :
  try_except ses_commit
    (fun e => logger_exception e ;; ses_rollback ;; ses_flush) w
  = Ok tt (committed_or_rolled_back true w).
Proof.
  unfold try_except, ses_commit, committed_or_rolled_back.
  destruct (next_commit_ok w); reflexivity.
Qed.

Lemma commit_silent_run w :
  try_except ses_commit (fun _ => ses_rollback ;; ses_flush) w
  = Ok tt (committed_or_rolled_back false w).
Proof.
  unfold try_except, ses_commit, committed_or_rolled_back.
  destruct (next_commit_ok w); reflexivity.
Qed.

(** After the commit or the rollback, the session has nothing pending, and
    both stores are one of the two there were. *)
Lemma committed_or_rolled_back_stores logs w :
  let w' := committed_or_rolled_back logs w in
  ses w' = db w' /\ (ses w' = ses w \/ ses w' = db w).
Proof.
  unfold committed_or_rolled_back.
  destruct (next_commit_ok w), logs; simpl; auto.
Qed.

Section BlockNotification.
Variable cfg : Config.
Variable client : Daemon.

(** [update_balances] leaves each of the two credit tables as one of the
    two it found, and a session without pending changes without any. *)
Lemma update_balances_credits info w :
  let w' := world_of (update_balances cfg client info w) in
  (credits (ses w') = credits (ses w) \/ credits (ses w') = credits (db w)) /\
  (credits (db w') = credits (db w) \/ credits (db w') = credits (ses w)) /\
  (ses w = db w -> ses w' = db w').
Proof.
  unfold update_balances, bind at 1, client_getbalance, rpc_call.
  destruct (getbalance client "*" 0) as [total|]; [|simpl; auto].
  unfold bind at 1, CURRENCIES_0.
  destruct (CURRENCIES cfg) as [|cur rest]; [simpl; auto|].
  unfold ret, bind, ses_add_new_hwbalance.
  rewrite commit_silent_run. unfold committed_or_rolled_back.
  match goal with |- context [next_commit_ok ?x] => destruct (next_commit_ok x) end;
    simpl; auto.
Qed.

Lemma update_balances_lookup info w i c :
  credits (ses w) !! i = Some c ->
  credits (db w) !! i = Some c ->
  let w' := world_of (update_balances cfg client info w) in
  credits (ses w') !! i = Some c /\ credits (db w') !! i = Some c.
Proof.
  intros Hs Hd. cbv zeta.
  pose proof (update_balances_credits info w) as H. cbv zeta in H.
  destruct H as ([Ha|Ha] & [Hb|Hb] & _); rewrite Ha, Hb; auto.
Qed.

(** A fresh height: the watermark is moved, the unconfirmed credits are
    gone over, the balances updated. *)
Lemma main_block_fresh data w info :
  getinfo client = Some info ->
  (lastblock w < Info.blocks info)%Z ->
  main cfg client "block" data w =
    (recheck_unconfirmed cfg client ;; update_balances cfg client info)
      (set_lastblock (Info.blocks info) (set_rpc (rpc w ++ [GetInfo]) w)).
Proof.
  intros Hinfo Hlt. unfold main. simpl.
  unfold bind at 1, client_getinfo, rpc_call. rewrite Hinfo. simpl.
  apply Z.leb_gt in Hlt. rewrite Hlt. reflexivity.
Qed.

(** The loop, then the commit. *)
Lemma recheck_unconfirmed_run w :
  recheck_unconfirmed cfg client w =
    match for_each (recheck_credit cfg client)
                   (unconfirmed_credits (credits (ses w))) w with
    | Ok _ w2 => Ok tt (committed_or_rolled_back true w2)
    | Raise e w2 => Raise e w2
    end.
Proof.
  unfold recheck_unconfirmed, bind.
  destruct (for_each _ _ w) as [[] w2|e w2]; [apply commit_logged_run|reflexivity].
Qed.


End BlockNotification.



Lemma next_commit_ok_parts w :
  next_commit_ok w = true <->
  commit_outcome w = true /\ unique_ref_ids (credits (ses w)).
Proof.
  unfold next_commit_ok. rewrite andb_true_iff, refs_unique_b_spec. tauto.
Qed.

(** A block notification with a fresh height, a daemon that answers for
    the unconfirmed credits and a commit that succeeds: the credits whose
    transactions have enough confirmations are completed, in the session
    and in the committed store, and the session has nothing pending. *)
Lemma block_completes cfg client data w info i c txd :
  getinfo client = Some info ->
  (lastblock w < Info.blocks info)%Z ->
  (forall j cj, credits (ses w) !! j = Some cj -> is_unconfirmed cj = true ->
                is_Some (gettransaction client (credit_txid cj))) ->
  next_commit_ok w = true ->
  unique_ref_ids (rechecked cfg client w) ->
  credits (ses w) !! i = Some c ->
  is_unconfirmed c = true ->
  gettransaction client (credit_txid c) = Some txd ->
  (CONFS cfg <= Txd.confirmations txd)%Z ->
  let w' := world_of (main cfg client "block" data w) in
  credits (ses w') !! i = Some (completed txd c) /\
  credits (db w') !! i = Some (completed txd c) /\
  ses w' = db w'.
Proof.
  intros Hinfo Hlt Hall Hok Huniq Hl Hu Htx Hconf. cbv zeta.
  rewrite (main_block_fresh cfg client data w info Hinfo Hlt).
  set (w1 := set_lastblock _ _).
  unfold bind. rewrite recheck_unconfirmed_run.
  set (pending := unconfirmed_credits (credits (ses w1))).
  destruct (recheck_loop_ok cfg client pending w1) as (w2 & Hrun & Hcs).
  { intros [j cj] Hin. apply unconfirmed_credits_In in Hin as [Hj Huj].
    apply (Hall j cj); assumption. }
  pose proof (recheck_loop_frame cfg client pending w1) as Hframe.
  rewrite Hrun in Hframe. simpl in Hframe.
  destruct Hframe as (_ & _ & _ & Hcm & _).
  rewrite Hrun.
  assert (Hok2 : next_commit_ok w2 = true).
  { apply next_commit_ok_parts. apply next_commit_ok_parts in Hok as [Hout _].
    split.
    - unfold commit_outcome in *. rewrite Hcm. exact Hout.
    - rewrite Hcs. exact Huniq. }
  assert (Hfold : credits (ses w2) !! i = Some (completed txd c)).
  { rewrite Hcs.
    apply recheck_fold_completes; try assumption.
    - apply enumerate_from_NoDup.
    - apply unconfirmed_credits_In. split; assumption. }
  set (w3 := committed_or_rolled_back true w2).
  assert (Hs3 : ses w3 = ses w2 /\ db w3 = ses w2).
  { unfold w3, committed_or_rolled_back. rewrite Hok2. split; reflexivity. }
  destruct Hs3 as [Hs3 Hd3].
  pose proof (update_balances_credits cfg client info w3) as Hub.
  cbv zeta in Hub. destruct Hub as (Hsc & Hdc & Hclean).
  rewrite Hs3, Hd3 in Hsc, Hdc.
  split; [|split].
  - destruct Hsc as [-> | ->]; exact Hfold.
  - destruct Hdc as [-> | ->]; exact Hfold.
  - apply Hclean. congruence.
Qed.




(** ** The reference id after confirmation *)

Lemma enumerate_from_app {A} (l1 l2 : list A) : forall k,
  enumerate_from k (l1 ++ l2) =
    enumerate_from k l1 ++ enumerate_from (k + length l1) l2.
Proof.
  induction l1 as [|x l1 IH]; intros k; simpl.
  - rewrite Nat.add_0_r. reflexivity.
  - rewrite IH. replace (S k + length l1) with (k + S (length l1)) by lia.
    reflexivity.
Qed.

(** The reference id of a completed credit carries the index of the last
    output of the transaction, whichever output the credit stands for. *)
Lemma completed_ref_id txd c outputs put :
  Txd.details txd = outputs ++ [put] ->
  Credit.ref_id (completed txd c) = ref_of (Txd.txid txd) (length outputs).
Proof.
  intros Hd. unfold completed, enumerate. rewrite Hd, enumerate_from_app.
  simpl. rewrite set_ref_ids_last. reflexivity.
Qed.

(** A transaction without outputs leaves the reference id as it is. *)
Lemma completed_ref_id_nil txd c :
  Txd.details txd = [] -> Credit.ref_id (completed txd c) = Credit.ref_id c.
Proof. intros Hd. unfold completed, enumerate. rewrite Hd. reflexivity. Qed.

(** C3 fails on the code: the credit for output 0 of the transaction "abc",
    which has two outputs and enough confirmations, comes out of the block
    notification with the reference id "abc:1", the index of the last
    output, and not with its own "abc:0". *)
Theorem block_rewrites_ref_id_to_last_output :
  let w := SampleDaemon.w_pending in
  let w' := world_of (main Sample.cfg SampleDaemon.client "block" "" w) in
  Credit.ref_id <$> credits (db w) !! 0 = Some "abc:0" /\
  output_index "abc:0" = Some 0 /\
  Credit.ref_id <$> credits (db w') !! 0 = Some "abc:1" /\
  Credit.transaction_state <$> credits (db w') !! 0 = Some "complete" /\
  ref_of "abc" 0 <> "abc:1".
Proof.
  cbv zeta. repeat split; try reflexivity. discriminate.
Qed.

(** * Further properties *)

(** ** Reading the balance *)

Section LatestRowChoice.
Variable net : string.

(** What [latest_from] returns is the candidate it was given or a key of the
    network, and no key of the network, nor the candidate, is later. *)
Lemma latest_from_max keys : forall k best i t,
  latest_from net k keys best = Some (i, t) ->
  (best = Some (i, t) \/
   (k <= i /\ exists n, keys !! (i - k) = Some (n, t) /\ (n =? net) = true)) /\
  (forall j bt, best = Some (j, bt) -> (bt <= t)%Z) /\
  (forall j n u, keys !! j = Some (n, u) -> (n =? net) = true -> (u <= t)%Z).
Proof.
  induction keys as [|[n u] keys IH]; intros k best i t Hl; simpl in Hl.
  - subst best. split; [left; reflexivity|]. split.
    + intros j bt [= _ <-]. lia.
    + intros j n u Hj. discriminate.
  - apply IH in Hl as (Hwhere & Hbest & Hmax).
    destruct (n =? net) eqn:Hn.
    + assert (Hu : (u <= t)%Z).
      { destruct best as [[j0 bt]|].
        - destruct (bt <? u)%Z eqn:Hlt.
          + apply (Hbest k u eq_refl).
          + specialize (Hbest j0 bt eq_refl). apply Z.ltb_ge in Hlt. lia.
        - apply (Hbest k u eq_refl). }
      split; [|split].
      * destruct Hwhere as [Hb|(Hle & n' & Hk & Hn')].
        -- destruct best as [[j0 bt]|].
           ++ destruct (bt <? u)%Z.
              ** inversion Hb; subst. right. split; [lia|].
                 exists n. rewrite Nat.sub_diag. split; [reflexivity|exact Hn].
              ** left. exact Hb.
           ++ inversion Hb; subst. right. split; [lia|].
              exists n. rewrite Nat.sub_diag. split; [reflexivity|exact Hn].
        -- right. split; [lia|]. exists n'.
           replace (i - k) with (S (i - S k)) by lia. split; assumption.
      * intros j bt ->. destruct (bt <? u)%Z eqn:Hlt.
        -- apply Z.ltb_lt in Hlt. lia.
        -- apply (Hbest j bt eq_refl).
      * intros [|j] n' u' Hj Hn'; simpl in Hj.
        -- inversion Hj; subst. exact Hu.
        -- eapply Hmax; eassumption.
    + split; [|split].
      * destruct Hwhere as [Hb|(Hle & n' & Hk & Hn')]; [left; exact Hb|].
        right. split; [lia|]. exists n'.
        replace (i - k) with (S (i - S k)) by lia. split; assumption.
      * exact Hbest.
      * intros [|j] n' u' Hj Hn'; simpl in Hj.
        -- inversion Hj; subst. congruence.
        -- eapply Hmax; eassumption.
Qed.

(** It returns nothing only when it was given no candidate and no key is of
    the network. *)
Lemma latest_from_none keys : forall k best,
  latest_from net k keys best = None ->
  best = None /\
  forall j n u, keys !! j = Some (n, u) -> (n =? net) = false.
Proof.
  induction keys as [|[n u] keys IH]; intros k best Hl; simpl in Hl.
  - split; [exact Hl|]. intros j n u Hj. discriminate.
  - apply IH in Hl as (Hb & Hrest).
    destruct (n =? net) eqn:Hn.
    + destruct best as [[j0 bt]|]; [destruct (bt <? u)%Z|]; discriminate.
    + split; [exact Hb|].
      intros [|j] n' u' Hj; simpl in Hj.
      * inversion Hj; subst. exact Hn.
      * eapply Hrest; eassumption.
Qed.
End LatestRowChoice.

(** The row the query returns is of the network, and no row of the network
    is later. *)
Lemma first_hwbalance_latest (l : list HWBalance.t) i h :
  first_hwbalance l = Some (i, h) ->
  HWBalance.network h = lower NETWORK /\
  forall j r, l !! j = Some r -> HWBalance.network r = lower NETWORK ->
              (HWBalance.time r <= HWBalance.time h)%Z.
Proof.
  intros Hq. apply first_hwbalance_lookup in Hq as [Hl Hi].
  unfold latest_index in Hi.
  destruct (latest_from _ 0 _ None) as [[i' t]|] eqn:E; [|discriminate].
  injection Hi as ->.
  apply latest_from_max in E as (Hwhere & _ & Hmax).
  destruct Hwhere as [Hb|(_ & n & Hk & Hn)]; [discriminate|].
  rewrite Nat.sub_0_r, list_lookup_fmap, Hl in Hk. simpl in Hk.
  injection Hk as <- <-.
  split; [apply String.eqb_eq; exact Hn|].
  intros j r Hj Hr.
  apply (Hmax j (HWBalance.network r) (HWBalance.time r)).
  - rewrite list_lookup_fmap, Hj. reflexivity.
  - apply String.eqb_eq. exact Hr.
Qed.

(** The query finds no row exactly when the table has no row of the
    network. *)
Lemma first_hwbalance_None (l : list HWBalance.t) :
  first_hwbalance l = None <->
  forall r, In r l -> HWBalance.network r <> lower NETWORK.
Proof.
  split.
  - intros Hq r Hin Hr. apply first_hwbalance_None_index in Hq.
    unfold latest_index in Hq.
    destruct (latest_from _ 0 _ None) as [[i' t]|] eqn:E; [discriminate|].
    apply latest_from_none in E as (_ & Hnone).
    apply list_elem_of_In, list_elem_of_lookup in Hin as [j Hj].
    specialize (Hnone j (HWBalance.network r) (HWBalance.time r)).
    rewrite list_lookup_fmap, Hj in Hnone. specialize (Hnone eq_refl).
    apply String.eqb_neq in Hnone. contradiction.
  - intros Hall.
    destruct (first_hwbalance l) as [[i h]|] eqn:Hq; [|reflexivity].
    pose proof (first_hwbalance_latest _ _ _ Hq) as [Hn _].
    apply first_hwbalance_lookup in Hq as [Hl _].
    exfalso. apply (Hall h); [|exact Hn].
    apply list_elem_of_In, list_elem_of_lookup. exists i. exact Hl.
Qed.

(** X1: when [get_balance] returns, it has changed nothing, and the total
    and available it reports are those of a snapshot of the network
    "bitcoin" than which no snapshot of that network has a later time. *)
Theorem get_balance_reports_latest w bd w' :
  get_balance w = Ok bd w' ->
  w' = w /\
  exists i h,
    hwbalances (ses w) !! i = Some h /\
    HWBalance.network h = "bitcoin" /\
    bd = mkBalanceDict (HWBalance.total h) (HWBalance.available h) /\
    forall j r, hwbalances (ses w) !! j = Some r ->
                HWBalance.network r = "bitcoin" ->
                (HWBalance.time r <= HWBalance.time h)%Z.
Proof.
  unfold get_balance, bind, query_first_hwbalance.
  destruct (first_hwbalance (hwbalances (ses w))) as [[i h]|] eqn:Hq;
    [|discriminate].
  intros [= <- <-]. split; [reflexivity|].
  exists i, h.
  pose proof (first_hwbalance_latest _ _ _ Hq) as [Hn Hmax].
  apply first_hwbalance_lookup in Hq as [Hl _].
  repeat split; assumption.
Qed.

Lemma get_balance_reports_latest_witness :
  get_balance SampleEmpty.w_three = Ok (mkBalanceDict 40 30) SampleEmpty.w_three /\
  exists i h,
    hwbalances (ses SampleEmpty.w_three) !! i = Some h /\
    HWBalance.time h = 5%Z.
Proof.
  split; [reflexivity|].
  destruct (get_balance_reports_latest SampleEmpty.w_three
              (mkBalanceDict 40 30) SampleEmpty.w_three eq_refl)
    as (_ & i & h & Hl & Hn & Hbd & _).
  exists i, h. split; [exact Hl|].
  destruct i as [|[|[|i]]]; simpl in Hl; inversion Hl; subst; simpl in *;
    try reflexivity; discriminate.
Defined.

(** X2: [get_balance] fails with [AttributeError], leaving everything as it
    is, exactly when the session holds no snapshot whose network is
    "bitcoin"; a snapshot filed under any other name, "Bitcoin" included,
    does not count. *)
Theorem get_balance_needs_seed w :
  (forall r, In r (hwbalances (ses w)) -> HWBalance.network r <> "bitcoin") <->
  get_balance w = Raise AttributeError w.
Proof.
  change "bitcoin" with (lower NETWORK).
  rewrite <- first_hwbalance_None.
  unfold get_balance, bind, query_first_hwbalance.
  destruct (first_hwbalance (hwbalances (ses w))) as [[i h]|]; split;
    try reflexivity; discriminate.
Qed.

Lemma get_balance_needs_seed_witness :
  get_balance SampleEmpty.w_unseeded = Raise AttributeError SampleEmpty.w_unseeded /\
  get_balance SampleEmpty.w_capitalised
    = Raise AttributeError SampleEmpty.w_capitalised.
Proof.
  split.
  - apply (proj1 (get_balance_needs_seed SampleEmpty.w_unseeded)).
    intros r [].
  - apply (proj1 (get_balance_needs_seed SampleEmpty.w_capitalised)).
    intros r [<-|[]]. discriminate.
Defined.

(** ** Adjusting the balance *)

Lemma all_commits_ok_next w : all_commits_ok w -> next_commit_ok w = true.
Proof.
  unfold all_commits_ok, next_commit_ok, commit_outcome. intros [H ->].
  destruct (commits w) as [|b bs]; [reflexivity|].
  apply Forall_cons in H as [-> _]. reflexivity.
Qed.

Lemma all_commits_ok_tail w w' :
  all_commits_ok w -> commits w' = tail (commits w) ->
  refs_unique_b (credits (ses w')) = true ->
  all_commits_ok w'.
Proof.
  unfold all_commits_ok. intros [H _] -> Hu. split; [|exact Hu].
  destruct (commits w) as [|b bs]; [exact H|].
  apply Forall_cons in H as [_ H]. exact H.
Qed.

Lemma all_commits_ok_same w w' :
  all_commits_ok w -> commits w' = commits w ->
  refs_unique_b (credits (ses w')) = true ->
  all_commits_ok w'.
Proof. unfold all_commits_ok. intros [H _] -> Hu. split; assumption. Qed.

Lemma adjusted_adjusted a1 t1 a2 t2 h :
  adjusted a2 t2 (adjusted a1 t1 h) =
  adjusted (Some (delta a1 + delta a2)%Z) (Some (delta t1 + delta t2)%Z) h.
Proof.
  unfold adjusted, delta. simpl. f_equal; lia.
Qed.

(** X3: with a delta given and no snapshot of the network "bitcoin" in the
    session, [adjust_hwbalance] fails with [AttributeError] before it
    commits or logs anything: the world is as it was. *)
Theorem adjust_hwbalance_needs_seed available total w :
  is_none available && is_none total = false ->
  (forall r, In r (hwbalances (ses w)) -> HWBalance.network r <> "bitcoin") ->
  adjust_hwbalance available total w = Raise AttributeError w.
Proof.
  intros Hargs Hnone. apply adjust_hwbalance_unseeded; [exact Hargs|].
  apply first_hwbalance_None. exact Hnone.
Qed.

Lemma adjust_hwbalance_needs_seed_witness :
  adjust_hwbalance None (Some 150%Z) SampleEmpty.w_capitalised
    = Raise AttributeError SampleEmpty.w_capitalised.
Proof.
  apply (adjust_hwbalance_needs_seed None (Some 150%Z) SampleEmpty.w_capitalised
           eq_refl).
  intros r [<-|[]]. discriminate.
Defined.

(** X4: two calls of [adjust_hwbalance] in a row, their commits succeeding,
    leave the session and the committed store as one call with the sums of
    the deltas does. *)
Theorem adjust_hwbalance_composes a1 t1 a2 t2 w i h :
  is_none a1 && is_none t1 = false ->
  is_none a2 && is_none t2 = false ->
  first_hwbalance (hwbalances (ses w)) = Some (i, h) ->
  all_commits_ok w ->
  exists w1 w2 w12,
    adjust_hwbalance a1 t1 w = Ok tt w1 /\
    adjust_hwbalance a2 t2 w1 = Ok tt w2 /\
    adjust_hwbalance (Some (delta a1 + delta a2)%Z)
                     (Some (delta t1 + delta t2)%Z) w = Ok tt w12 /\
    ses w2 = ses w12 /\ db w2 = db w12.
Proof.
  intros H1 H2 Hq Hok.
  pose proof (first_hwbalance_lookup _ _ _ Hq) as [Hl _].
  rewrite (adjust_hwbalance_run a1 t1 w i h H1 Hq).
  rewrite (adjust_hwbalance_run (Some (delta a1 + delta a2)%Z)
             (Some (delta t1 + delta t2)%Z) w i h eq_refl Hq).
  cbv zeta. rewrite (all_commits_ok_next w Hok).
  eexists. eexists. eexists. split; [reflexivity|].
  match goal with |- adjust_hwbalance _ _ ?x = _ /\ _ => set (w1 := x) end.
  assert (Hq1 : first_hwbalance (hwbalances (ses w1)) = Some (i, adjusted a1 t1 h)).
  { simpl. apply (first_hwbalance_insert _ _ h); [exact Hq|reflexivity]. }
  assert (Hok1 : next_commit_ok w1 = true).
  { apply all_commits_ok_next.
    apply (all_commits_ok_tail w); [exact Hok|reflexivity|exact (proj2 Hok)]. }
  rewrite (adjust_hwbalance_run a2 t2 w1 i _ H2 Hq1).
  cbv zeta. rewrite Hok1.
  split; [reflexivity|]. split; [reflexivity|].
  simpl. unfold adjusted_store. simpl.
  rewrite list_insert_insert_eq, adjusted_adjusted. split; reflexivity.
Qed.

Lemma adjust_hwbalance_composes_witness :
  exists w1 w2,
    adjust_hwbalance None (Some 150%Z) Sample.w0 = Ok tt w1 /\
    adjust_hwbalance (Some (-5)%Z) (Some (-5)%Z) w1 = Ok tt w2 /\
    hwbalances (ses w2) = [HWBalance.mk 95 245 "BTC" "bitcoin" 1].
Proof.
  destruct (adjust_hwbalance_composes None (Some 150%Z) (Some (-5)%Z)
              (Some (-5)%Z) Sample.w0 0
              (HWBalance.mk 100 100 "BTC" "bitcoin" 1)
              eq_refl eq_refl eq_refl ltac:(split; [constructor|reflexivity]))
    as (w1 & w2 & w12 & Hr1 & Hr2 & Hr12 & Hs & _).
  exists w1, w2. split; [exact Hr1|]. split; [exact Hr2|].
  rewrite Hs. injection Hr12 as <-. reflexivity.
Defined.

(** ** Sending: when things go wrong *)

(** X5: when the daemon refuses the send, [send_to_address] fails with the
    daemon's error and the balance cache is not touched: session, committed
    store, log and pending commits are as they were. *)
Theorem send_to_address_daemon_error client address amount w :
  sendtoaddress client address amount = None ->
  send_to_address client address amount w =
    Raise JSONRPCException (set_rpc (rpc w ++ [SendToAddress address amount]) w).
Proof.
  intros Hsend. unfold send_to_address, bind, client_sendtoaddress, rpc_call.
  rewrite Hsend. reflexivity.
Qed.

Lemma send_to_address_daemon_error_witness :
  send_to_address SampleFailures.down "dest" 500 Sample.w0 =
    Raise JSONRPCException (set_rpc [SendToAddress "dest" 500%Z] Sample.w0).
Proof.
  exact (send_to_address_daemon_error SampleFailures.down "dest" 500 Sample.w0
           eq_refl).
Defined.

(** X6: when the daemon has sent the coins and the commit of the adjustment
    fails, [send_to_address] still returns the transaction id, and the
    balance cache is as it was before the call: the failure is only logged. *)
Theorem send_to_address_commit_failure client address amount w txid i h :
  sendtoaddress client address amount = Some txid ->
  first_hwbalance (hwbalances (ses w)) = Some (i, h) ->
  next_commit_ok w = false ->
  exists w',
    send_to_address client address amount w = Ok txid w' /\
    ses w' = db w /\ db w' = db w /\
    log w' = log w ++ [LogException (exn_message SQLAlchemyError)] /\
    rpc w' = rpc w ++ [SendToAddress address amount].
Proof.
  intros Hsend Hq Hfail.
  unfold send_to_address, bind at 1, client_sendtoaddress, rpc_call.
  rewrite Hsend.
  set (w1 := set_rpc (rpc w ++ [SendToAddress address amount]) w).
  assert (Hq1 : first_hwbalance (hwbalances (ses w1)) = Some (i, h)) by exact Hq.
  unfold bind, ret.
  rewrite (adjust_hwbalance_run (Some (- amount)%Z) (Some (- amount)%Z)
             w1 _ _ eq_refl Hq1).
  cbv zeta. replace (next_commit_ok w1) with false by (symmetry; exact Hfail).
  eexists. split; [reflexivity|]. simpl. auto.
Qed.

Lemma send_to_address_commit_failure_witness :
  exists w',
    send_to_address SampleDaemon.client "dest" 60 Sample.w_failing
      = Ok "sent-txid" w' /\
    ses w' = Sample.seeded /\ db w' = Sample.seeded.
Proof.
  destruct (send_to_address_commit_failure SampleDaemon.client "dest" 60
              Sample.w_failing "sent-txid" 0
              (HWBalance.mk 100 100 "BTC" "bitcoin" 1)
              eq_refl eq_refl eq_refl) as (w' & Hr & Hs & Hd & _).
  exists w'. split; [exact Hr|]. split; assumption.
Defined.

(** X7: when the daemon has sent the coins and the session holds no
    snapshot of the network "bitcoin", [send_to_address] fails with
    [AttributeError] after the send: the caller does not get the
    transaction id, though the daemon was called. *)
Theorem send_to_address_unseeded client address amount w txid :
  sendtoaddress client address amount = Some txid ->
  (forall r, In r (hwbalances (ses w)) -> HWBalance.network r <> "bitcoin") ->
  send_to_address client address amount w =
    Raise AttributeError (set_rpc (rpc w ++ [SendToAddress address amount]) w).
Proof.
  intros Hsend Hnone.
  unfold send_to_address, bind at 1, client_sendtoaddress, rpc_call.
  rewrite Hsend.
  set (w1 := set_rpc (rpc w ++ [SendToAddress address amount]) w).
  unfold bind.
  rewrite (adjust_hwbalance_unseeded (Some (- amount)%Z) (Some (- amount)%Z)
             w1 eq_refl (proj2 (first_hwbalance_None _) Hnone)).
  reflexivity.
Qed.

Lemma send_to_address_unseeded_witness :
  send_to_address SampleDaemon.client "dest" 60 SampleEmpty.w_unseeded =
    Raise AttributeError
      (set_rpc [SendToAddress "dest" 60%Z] SampleEmpty.w_unseeded).
Proof.
  apply (send_to_address_unseeded SampleDaemon.client "dest" 60
           SampleEmpty.w_unseeded "sent-txid" eq_refl).
  intros r [].
Defined.

(** ** Receiving: every way a call can end *)

Lemma process_receive_outcome cfg txid details confirmed w :
  receive_outcome cfg txid details confirmed w
    (process_receive cfg txid details confirmed w).
Proof.
  destruct (credits_with_ref txid (credits (ses w))) as [|c0 l0] eqn:Hn.
  2:{ rewrite process_receive_known by (rewrite Hn; discriminate).
      constructor. rewrite Hn. discriminate. }
  destruct (first_address (Detail.address details) (addresses w)) as [addy|] eqn:Ha.
  2:{ rewrite process_receive_unknown_address by assumption.
      constructor; assumption. }
  destruct (CURRENCIES cfg) as [|cur rest] eqn:Hc.
  { replace (process_receive cfg txid details confirmed w)
      with (@Raise unit IndexError (logged (LogInfo ("crediting txid " ++ txid)) w)).
    - apply receive_no_currency; assumption.
    - unfold process_receive. rewrite Hn, Ha. simpl.
      unfold bind, logger_info, CURRENCIES_0. rewrite Hc. reflexivity. }
  rewrite (process_receive_new _ _ _ _ _ _ _ _ Hn Ha Hc).
  fold (credited (credit_for txid details confirmed cur addy) txid w).
  set (w1 := credited _ txid w).
  destruct (first_hwbalance (hwbalances (ses w))) as [[i h]|] eqn:Hq.
  - assert (Hq1 : first_hwbalance (hwbalances (ses w1)) = Some (i, h)) by exact Hq.
    rewrite (adjust_hwbalance_run None (Some (Detail.amount details)) w1 i h
               eq_refl Hq1).
    cbv zeta.
    rewrite (next_commit_ok_fresh_credit w w1 _ eq_refl eq_refl Hn).
    destruct (next_commit_ok w) eqn:Hok.
    + apply (receive_committed cfg txid details confirmed w addy cur rest i h);
        assumption.
    + apply (receive_rolled_back cfg txid details confirmed w addy cur rest i h);
        assumption.
  - assert (Hq1 : first_hwbalance (hwbalances (ses w1)) = None) by exact Hq.
    rewrite (adjust_hwbalance_unseeded None (Some (Detail.amount details)) w1
               eq_refl Hq1).
    apply (receive_unseeded cfg txid details confirmed w addy cur rest);
      assumption.
Qed.

Lemma first_address_None a (l : list Address.t) :
  first_address a l = None <->
  forall x, In x l -> Address.address x <> a.
Proof.
  unfold first_address. split.
  - intros Hf x Hin Hx.
    pose proof (find_none _ _ Hf x Hin) as Hno. simpl in Hno.
    apply String.eqb_neq in Hno. contradiction.
  - intros Hall. destruct (find _ l) as [x|] eqn:Hf; [|reflexivity].
    apply find_some in Hf as [Hin Hx]. apply String.eqb_eq in Hx.
    exfalso. apply (Hall x Hin Hx).
Qed.

(** X8: [process_receive] never calls the daemon and never touches the
    address table, the watermark or the record of [confirm_send]; in a
    session without pending changes, however the call ends, the credits that
    were there are there unchanged, and at most one is added after them,
    under the reference id of the call. *)
Theorem process_receive_keeps_credits cfg txid details confirmed w :
  clean w ->
  let w' := world_of (process_receive cfg txid details confirmed w) in
  (credits (ses w') = credits (ses w) \/
   exists c, credits (ses w') = credits (ses w) ++ [c] /\ Credit.ref_id c = txid /\
             Credit.amount c = Detail.amount details /\
             credits_with_ref txid (credits (ses w)) = []) /\
  (credits (db w') = credits (db w) \/ credits (db w') = credits (ses w')) /\
  addresses w' = addresses w /\ rpc w' = rpc w /\
  confirm_sends w' = confirm_sends w /\ lastblock w' = lastblock w.
Proof.
  intros Hclean. cbv zeta.
  destruct (process_receive_outcome cfg txid details confirmed w); simpl;
    try (repeat split; auto; fail).
  - repeat split; auto. right. eexists. repeat split; auto.
  - repeat split; auto. right. eexists. repeat split; auto.
  - repeat split; auto. left. rewrite Hclean. reflexivity.
Qed.

Lemma process_receive_keeps_credits_witness :
  let w' := world_of (process_receive Sample.cfg "abc:0"
                        (Detail.mk "known-addr" 150 "receive") false
                        Sample.w_failing) in
  credits (ses w') = [] /\ rpc w' = [].
Proof.
  destruct (process_receive_keeps_credits Sample.cfg "abc:0"
              (Detail.mk "known-addr" 150 "receive") false Sample.w_failing
              eq_refl) as (_ & _ & _ & Hrpc & _).
  split; [reflexivity|exact Hrpc].
Defined.

(** X9: a payment to an address that is not in the address table creates no
    credit and changes no balance: the call returns with one more line in
    the log and nothing else changed. *)
Theorem process_receive_ignores_unknown_address cfg txid details confirmed w :
  (forall a, In a (addresses w) -> Address.address a <> Detail.address details) ->
  exists e, process_receive cfg txid details confirmed w = Ok tt (logged e w).
Proof.
  intros Hunknown. apply first_address_None in Hunknown.
  destruct (credits_with_ref txid (credits (ses w))) as [|c0 l0] eqn:Hn.
  - eexists. apply process_receive_unknown_address; assumption.
  - eexists. apply process_receive_known. rewrite Hn. discriminate.
Qed.

Lemma process_receive_ignores_unknown_address_witness :
  process_receive Sample.cfg "abc:0" (Detail.mk "stranger" 150 "receive") false
    Sample.w0
  = Ok tt (logged (LogWarning "address not known. returning.") Sample.w0).
Proof.
  destruct (process_receive_ignores_unknown_address Sample.cfg "abc:0"
              (Detail.mk "stranger" 150 "receive") false Sample.w0) as (e & He).
  - intros a [<-|[]]. discriminate.
  - rewrite He. vm_compute in He. injection He as He. rewrite <- He. reflexivity.
Defined.

(** ** Reference ids *)

Lemma split_colon_head_ref t s :
  has_colon t = false -> split_colon_head (t ++ ":" ++ s) = t.
Proof.
  induction t as [|c t IH]; simpl; intros Hc; [reflexivity|].
  apply orb_false_elim in Hc as [Hc Ht]. rewrite Hc, IH by exact Ht.
  reflexivity.
Qed.

(** X10: the transaction id the block path asks the daemon about is the one
    the transaction path built the reference id from: for a transaction id
    that is not empty and holds no colon, a credit filed under
    ["%s:%s" % (txid, p)] is looked up under [txid]. *)
Theorem credit_txid_of_ref txid p c :
  txid <> "" ->
  has_colon txid = false ->
  Credit.ref_id c = ref_of txid p ->
  credit_txid c = txid.
Proof.
  intros Hne Hc Hr. unfold credit_txid. rewrite Hr. unfold ref_of.
  rewrite split_colon_head_ref by exact Hc.
  destruct txid; [contradiction|reflexivity].
Qed.

Lemma credit_txid_of_ref_witness :
  credit_txid SampleDaemon.cred_abc_0 = "abc".
Proof.
  apply (credit_txid_of_ref "abc" 0 SampleDaemon.cred_abc_0);
    [discriminate|reflexivity|reflexivity].
Defined.

(** ** Transaction notifications as a whole *)

Section TransactionNotification.
Variable cfg : Config.
Variables (txid : string) (confirmed : bool).

(** What one pass of the loop leaves alone, and what it adds to the record
    of [confirm_send], however it ends. *)
Lemma handle_output_frame pput w :
  let w' := world_of (handle_output cfg txid confirmed pput w) in
  rpc w' = rpc w /\ lastblock w' = lastblock w /\ addresses w' = addresses w /\
  confirm_sends w' =
    confirm_sends w ++ (if is_send pput then [send_confirmation txid pput] else []).
Proof.
  destruct pput as [p put]. unfold handle_output, is_send. simpl.
  destruct (Detail.category put =? "send"); [simpl; auto|].
  rewrite app_nil_r.
  destruct (Detail.category put =? "receive"); [|simpl; auto].
  destruct (process_receive_outcome cfg (ref_of txid p) put confirmed w);
    simpl; auto.
Qed.

Lemma outputs_loop_frame outputs : forall w,
  let r := for_each (handle_output cfg txid confirmed) outputs w in
  rpc (world_of r) = rpc w /\ lastblock (world_of r) = lastblock w /\
  addresses (world_of r) = addresses w /\
  (returns r = true ->
   confirm_sends (world_of r) =
     confirm_sends w ++ map (send_confirmation txid) (List.filter is_send outputs)).
Proof.
  induction outputs as [|pput outputs IH]; intros w.
  - simpl. rewrite app_nil_r. auto.
  - cbv zeta. rewrite for_each_cons.
    pose proof (handle_output_frame pput w) as Hstep. cbv zeta in Hstep.
    destruct (handle_output cfg txid confirmed pput w) as [[] w1|e w1];
      simpl in Hstep; destruct Hstep as (Hr & Hl & Ha & Hc).
    + specialize (IH w1). cbv zeta in IH. destruct IH as (Hr' & Hl' & Ha' & Hc').
      rewrite Hr', Hl', Ha', Hr, Hl, Ha. repeat split.
      intros Hret. rewrite (Hc' Hret), Hc. simpl.
      destruct (is_send pput); simpl; rewrite <- app_assoc; reflexivity.
    + simpl. repeat split; try assumption. discriminate.
Qed.

(** One pass that returns, when the commits succeed: credits stay, the
    session stays without pending changes, and a receive output is
    settled. *)
Lemma handle_output_settles pput w w' :
  handle_output cfg txid confirmed pput w = Ok tt w' ->
  all_commits_ok w ->
  all_commits_ok w' /\ addresses w' = addresses w /\
  (clean w -> clean w') /\
  (forall r, credits_with_ref r (credits (ses w)) <> [] ->
             credits_with_ref r (credits (ses w')) <> []) /\
  settled txid w' pput.
Proof.
  destruct pput as [p put]. unfold handle_output, settled, is_receive, is_send.
  simpl. intros Hrun Hok. pose proof Hok as [Hf Hu].
  destruct (Detail.category put =? "send").
  { injection Hrun as <-. simpl. repeat split; auto; discriminate. }
  destruct (Detail.category put =? "receive").
  2:{ injection Hrun as <-. repeat split; auto; discriminate. }
  pose proof (process_receive_outcome cfg (ref_of txid p) put confirmed w) as Hout.
  rewrite Hrun in Hout. clear Hrun.
  inversion Hout; subst; simpl.
  - repeat split; auto.
  - repeat split; auto.
  - split.
    { apply (all_commits_ok_tail w); [exact Hok|reflexivity|].
      simpl. rewrite refs_unique_b_snoc by assumption. exact (proj2 Hok). }
    repeat split; auto.
    + intros r Hr. rewrite credits_with_ref_snoc. intros Happ.
      apply app_eq_nil in Happ as [Happ _]. contradiction.
    + intros _. left. rewrite credits_with_ref_snoc.
      simpl. rewrite decide_True by reflexivity.
      intros Happ. apply app_eq_nil in Happ as [_ Happ]. discriminate.
  - rewrite (all_commits_ok_next w Hok) in *. discriminate.
Qed.

Lemma settled_mono w w' pput :
  addresses w' = addresses w ->
  (forall r, credits_with_ref r (credits (ses w)) <> [] ->
             credits_with_ref r (credits (ses w')) <> []) ->
  settled txid w pput -> settled txid w' pput.
Proof.
  unfold settled. intros Ha Hm Hs Hr. rewrite Ha.
  destruct (Hs Hr) as [Hk|Hu]; [left; apply Hm; exact Hk|right; exact Hu].
Qed.

Lemma outputs_loop_settles outputs : forall w w',
  for_each (handle_output cfg txid confirmed) outputs w = Ok tt w' ->
  all_commits_ok w ->
  all_commits_ok w' /\ addresses w' = addresses w /\
  (clean w -> clean w') /\
  (forall r, credits_with_ref r (credits (ses w)) <> [] ->
             credits_with_ref r (credits (ses w')) <> []) /\
  Forall (settled txid w') outputs.
Proof.
  induction outputs as [|pput outputs IH]; intros w w' Hrun Hok.
  - injection Hrun as <-. split; [exact Hok|]. repeat split; auto.
  - rewrite for_each_cons in Hrun.
    destruct (handle_output cfg txid confirmed pput w) as [[] w1|e w1] eqn:Hstep;
      [|discriminate].
    destruct (handle_output_settles pput w w1 Hstep Hok)
      as (Hok1 & Ha1 & Hc1 & Hm1 & Hs1).
    destruct (IH w1 w' Hrun Hok1) as (Hok' & Ha' & Hc' & Hm' & Hs').
    split; [exact Hok'|]. split; [congruence|]. split; [auto|].
    split; [auto|].
    constructor; [|exact Hs'].
    apply (settled_mono w1 w'); assumption.
Qed.

(** A pass over a settled output changes neither store. *)
Lemma handle_output_settled pput w :
  settled txid w pput ->
  let w' := world_of (handle_output cfg txid confirmed pput w) in
  ses w' = ses w /\ db w' = db w /\ addresses w' = addresses w.
Proof.
  destruct pput as [p put]. unfold handle_output, settled, is_receive, is_send.
  simpl. intros Hs.
  destruct (Detail.category put =? "send"); [simpl; auto|].
  destruct (Detail.category put =? "receive"); [|simpl; auto].
  destruct (credits_with_ref (ref_of txid p) (credits (ses w))) as [|c0 l0] eqn:Hn.
  - destruct (Hs eq_refl) as [Hk|Hu]; [contradiction|].
    rewrite process_receive_unknown_address by assumption. simpl. auto.
  - rewrite process_receive_known by (rewrite Hn; discriminate). simpl. auto.
Qed.

Lemma outputs_loop_settled outputs : forall w,
  Forall (settled txid w) outputs ->
  let w' := world_of (for_each (handle_output cfg txid confirmed) outputs w) in
  ses w' = ses w /\ db w' = db w.
Proof.
  induction outputs as [|pput outputs IH]; intros w Hall; [simpl; auto|].
  apply Forall_cons in Hall as [Hhead Htail].
  cbv zeta. rewrite for_each_cons.
  pose proof (handle_output_settled pput w Hhead) as Hstep. cbv zeta in Hstep.
  destruct (handle_output cfg txid confirmed pput w) as [[] w1|e w1];
    simpl in Hstep; destruct Hstep as (Hs & Hd & Ha); [|simpl; auto].
  assert (Htail1 : Forall (settled txid w1) outputs).
  { eapply Forall_impl; [exact Htail|]. intros x Hx.
    unfold settled in *. rewrite Hs, Ha. exact Hx. }
  specialize (IH w1 Htail1). cbv zeta in IH. destruct IH as [-> ->]. auto.
Qed.
End TransactionNotification.

(** The transaction notification: one call to the daemon, then the loop. *)
Lemma main_transaction_run cfg client data w :
  main cfg client "transaction" data w =
    match gettransaction client data with
    | Some txd =>
        for_each (handle_output cfg data (CONFS cfg <=? Txd.confirmations txd)%Z)
                 (enumerate (Txd.details txd))
                 (set_rpc (rpc w ++ [GetTransaction data]) w)
    | None => Raise JSONRPCException (set_rpc (rpc w ++ [GetTransaction data]) w)
    end.
Proof.
  unfold main. simpl. unfold bind, client_gettransaction, rpc_call.
  destruct (gettransaction client data); reflexivity.
Qed.

Lemma enumerate_In {A} (l : list A) p x :
  In (p, x) (enumerate l) <-> l !! p = Some x.
Proof.
  unfold enumerate. rewrite enumerate_from_In, Nat.sub_0_r. intuition lia.
Qed.

(** X11: a transaction notification that returns has asked the daemon for
    the transaction once and for nothing else, has left the watermark as it
    was, and has called [confirm_send] once for each "send" output, in the
    order of the outputs, each with the output's address and amount and the
    reference id made of the transaction id and the output's index. *)
Theorem transaction_confirms_sends cfg client data w w' :
  main cfg client "transaction" data w = Ok tt w' ->
  exists txd,
    gettransaction client data = Some txd /\
    rpc w' = rpc w ++ [GetTransaction data] /\
    lastblock w' = lastblock w /\
    confirm_sends w' =
      confirm_sends w ++
      map (send_confirmation data) (List.filter is_send (enumerate (Txd.details txd))).
Proof.
  rewrite main_transaction_run.
  destruct (gettransaction client data) as [txd|]; [|discriminate].
  intros Hrun. exists txd. split; [reflexivity|].
  pose proof (outputs_loop_frame cfg data (CONFS cfg <=? Txd.confirmations txd)%Z
                (enumerate (Txd.details txd))
                (set_rpc (rpc w ++ [GetTransaction data]) w)) as Hf.
  cbv zeta in Hf. rewrite Hrun in Hf. simpl in Hf.
  destruct Hf as (Hr & Hl & _ & Hc). auto.
Qed.

Lemma transaction_confirms_sends_witness :
  exists w',
    main Sample.cfg SampleSend.client "transaction" "pay" Sample.w0 = Ok tt w' /\
    confirm_sends w' = [mkSendConfirmation "dest" 40 "pay:0"].
Proof.
  exists (world_of (main Sample.cfg SampleSend.client "transaction" "pay"
                      Sample.w0)).
  split; [reflexivity|].
  destruct (transaction_confirms_sends Sample.cfg SampleSend.client "pay"
              Sample.w0 _ eq_refl) as (txd & Htx & _ & _ & Hc).
  vm_compute in Htx. injection Htx as <-. exact Hc.
Defined.

(** X12: after a transaction notification that returns, the commits
    succeeding, every "receive" output of the transaction whose address is
    in the address table has a Credit filed under the transaction id and
    its index; and a session that had no pending change has none. *)
Theorem transaction_credits_receives cfg client data w w' txd p put a :
  main cfg client "transaction" data w = Ok tt w' ->
  all_commits_ok w ->
  gettransaction client data = Some txd ->
  Txd.details txd !! p = Some put ->
  Detail.category put = "receive" ->
  In a (addresses w) ->
  Address.address a = Detail.address put ->
  credits_with_ref (ref_of data p) (credits (ses w')) <> [] /\
  (clean w -> clean w').
Proof.
  rewrite main_transaction_run. intros Hrun Hok Htx Hp Hcat Hin Ha.
  rewrite Htx in Hrun.
  apply outputs_loop_settles in Hrun as (_ & Haddr & Hclean & _ & Hall);
    [|exact Hok].
  split; [|exact Hclean].
  rewrite Forall_forall in Hall.
  specialize (Hall (p, put)).
  destruct Hall as [Hk|Hu].
  - apply list_elem_of_In, enumerate_In. exact Hp.
  - unfold is_receive, is_send. simpl. rewrite Hcat. reflexivity.
  - exact Hk.
  - simpl in Hu. rewrite Haddr in Hu. simpl in Hu.
    exfalso. apply (proj1 (first_address_None _ _) Hu a Hin Ha).
Qed.

Lemma transaction_credits_receives_witness :
  exists w',
    main Sample.cfg SampleSend.client "transaction" "pay" Sample.w0 = Ok tt w' /\
    credits_with_ref "pay:1" (credits (ses w')) <> [] /\ clean w'.
Proof.
  exists (world_of (main Sample.cfg SampleSend.client "transaction" "pay"
                      Sample.w0)).
  split; [reflexivity|].
  destruct (transaction_credits_receives Sample.cfg SampleSend.client "pay"
              Sample.w0 _ SampleSend.tx_pay 1
              (Detail.mk "known-addr" 25 "receive") (Address.mk "known-addr" 7)
              eq_refl ltac:(split; [constructor|reflexivity]) eq_refl eq_refl eq_refl
              ltac:(left; reflexivity) eq_refl) as (Hk & Hc).
  split; [exact Hk|apply Hc; reflexivity].
Defined.

(** X13: notifying the same transaction again changes neither the credits
    nor the balance cache: when a transaction notification has returned, the
    commits succeeding, a second notification of the same transaction leaves
    the session and the committed store as the first left them. *)
Theorem transaction_renotified cfg client data w w' :
  main cfg client "transaction" data w = Ok tt w' ->
  all_commits_ok w ->
  let w'' := world_of (main cfg client "transaction" data w') in
  ses w'' = ses w' /\ db w'' = db w'.
Proof.
  intros Hrun Hok. cbv zeta.
  rewrite main_transaction_run in Hrun. rewrite main_transaction_run.
  destruct (gettransaction client data) as [txd|]; [|discriminate].
  apply outputs_loop_settles in Hrun as (_ & _ & _ & _ & Hall); [|exact Hok].
  apply (outputs_loop_settled cfg data _ (enumerate (Txd.details txd))
           (set_rpc (rpc w' ++ [GetTransaction data]) w')).
  eapply Forall_impl; [exact Hall|]. intros x Hx. exact Hx.
Qed.

Lemma transaction_renotified_witness :
  let w' := world_of (main Sample.cfg SampleSend.client "transaction" "pay"
                        Sample.w0) in
  let w'' := world_of (main Sample.cfg SampleSend.client "transaction" "pay" w') in
  length (credits (ses w'')) = 1 /\ ses w'' = ses w'.
Proof.
  cbv zeta. split; [reflexivity|].
  exact (proj1 (transaction_renotified Sample.cfg SampleSend.client "pay"
                  Sample.w0 _ eq_refl ltac:(split; [constructor|reflexivity]))).
Defined.

(** ** Block notifications as a whole *)

Section LatestAfterAppend.
Variable net : string.

Lemma latest_from_app keys1 : forall keys2 k best,
  latest_from net k (keys1 ++ keys2) best =
  latest_from net (k + length keys1) keys2 (latest_from net k keys1 best).
Proof.
  induction keys1 as [|[n u] keys1 IH]; intros keys2 k best; simpl.
  - rewrite Nat.add_0_r. reflexivity.
  - rewrite IH. replace (S k + length keys1) with (k + S (length keys1)) by lia.
    reflexivity.
Qed.

(** A key of the network later than every key of the network in the table,
    put at the end, is the latest. *)
Lemma latest_index_snoc keys t :
  (forall j n u, keys !! j = Some (n, u) -> (n =? net) = true -> (u < t)%Z) ->
  latest_index net (keys ++ [(net, t)]) = Some (length keys).
Proof.
  intros Hlater. unfold latest_index. rewrite latest_from_app. simpl.
  rewrite String.eqb_refl.
  destruct (latest_from net 0 keys None) as [[j bt]|] eqn:E; [|reflexivity].
  apply latest_from_max in E as ([Hb|(_ & n & Hk & Hn)] & _ & _); [discriminate|].
  rewrite Nat.sub_0_r in Hk. specialize (Hlater j n bt Hk Hn).
  apply Z.ltb_lt in Hlater. rewrite Hlater. reflexivity.
Qed.
End LatestAfterAppend.

Lemma first_hwbalance_snoc (l : list HWBalance.t) h :
  HWBalance.network h = lower NETWORK ->
  (forall r, In r l -> HWBalance.network r = lower NETWORK ->
             (HWBalance.time r < HWBalance.time h)%Z) ->
  first_hwbalance (l ++ [h]) = Some (length l, h).
Proof.
  intros Hn Hlater. unfold first_hwbalance.
  rewrite fmap_app. simpl. unfold hwb_key at 2. rewrite Hn.
  rewrite latest_index_snoc.
  - rewrite length_fmap, lookup_app_r, Nat.sub_diag by lia. reflexivity.
  - intros j n u Hj Hnu. rewrite list_lookup_fmap in Hj.
    destruct (l !! j) as [r|] eqn:Hr; [|discriminate].
    simpl in Hj. injection Hj as <- <-.
    apply Hlater.
    + apply list_elem_of_In, list_elem_of_lookup. exists j. exact Hr.
    + apply String.eqb_eq. exact Hnu.
Qed.

Section BlockRuns.
Variable cfg : Config.
Variable client : Daemon.

(** The loop over the unconfirmed credits does not touch the clock. *)
Lemma recheck_loop_now pending : forall w,
  now (world_of (for_each (recheck_credit cfg client) pending w)) = now w.
Proof.
  induction pending as [|[i cred] pending IH]; intros w; [reflexivity|].
  rewrite for_each_cons, recheck_credit_run. cbv zeta.
  destruct (gettransaction client (credit_txid cred)); [|reflexivity].
  rewrite IH. reflexivity.
Qed.

(** The loop stops with the daemon's error when the daemon does not answer
    for one of the credits. *)
Lemma recheck_loop_raises pending : forall w,
  (exists ic, In ic pending /\ gettransaction client (credit_txid (snd ic)) = None) ->
  exists w', for_each (recheck_credit cfg client) pending w
             = Raise JSONRPCException w'.
Proof.
  induction pending as [|[i cred] pending IH]; intros w (ic & Hin & Hnone);
    [contradiction|].
  rewrite for_each_cons, recheck_credit_run. cbv zeta.
  destruct (gettransaction client (credit_txid cred)) as [txd|] eqn:Htx.
  - apply IH. exists ic. split; [|exact Hnone].
    destruct Hin as [<-|Hin]; [|exact Hin]. simpl in Hnone. congruence.
  - eexists. reflexivity.
Qed.

(** A credit on which every step of the loop is the identity is the same
    after the loop, however the loop ends. *)
Lemma recheck_loop_keeps pending : forall w j,
  (forall c cs, In (j, c) pending -> recheck_step cfg client cs (j, c) !! j = cs !! j) ->
  credits (ses (world_of (for_each (recheck_credit cfg client) pending w))) !! j
  = credits (ses w) !! j.
Proof.
  induction pending as [|[i cred] pending IH]; intros w j Hid; [reflexivity|].
  rewrite for_each_cons, recheck_credit_run. cbv zeta.
  destruct (gettransaction client (credit_txid cred)) as [txd|] eqn:Htx;
    [|reflexivity].
  rewrite IH by (intros c cs Hin; apply Hid; right; exact Hin).
  simpl. destruct (decide (j = i)) as [->|Hne].
  - apply Hid. left. reflexivity.
  - apply recheck_step_other. exact Hne.
Qed.

(** A block notification with a fresh height, when the daemon answers for
    every unconfirmed credit: the loop returns, and what is left is the
    commit and the update of the balances. *)
Lemma main_block_run data w info :
  getinfo client = Some info ->
  (lastblock w < Info.blocks info)%Z ->
  (forall j cj, credits (ses w) !! j = Some cj -> is_unconfirmed cj = true ->
                is_Some (gettransaction client (credit_txid cj))) ->
  exists w2,
    main cfg client "block" data w =
      update_balances cfg client info (committed_or_rolled_back true w2) /\
    credits (ses w2) =
      fold_left (recheck_step cfg client) (unconfirmed_credits (credits (ses w)))
                (credits (ses w)) /\
    db w2 = db w /\ hwbalances (ses w2) = hwbalances (ses w) /\
    log w2 = log w /\ commits w2 = commits w /\
    lastblock w2 = Info.blocks info /\ now w2 = now w.
Proof.
  intros Hinfo Hlt Hall.
  rewrite (main_block_fresh cfg client data w info Hinfo Hlt).
  set (w1 := set_lastblock _ _).
  set (pending := unconfirmed_credits (credits (ses w))).
  destruct (recheck_loop_ok cfg client pending w1) as (w2 & Hrun & Hcs).
  { intros [j cj] Hin. apply unconfirmed_credits_In in Hin as [Hj Huj].
    apply (Hall j cj); assumption. }
  pose proof (recheck_loop_frame cfg client pending w1) as Hframe.
  pose proof (recheck_loop_now pending w1) as Hnow.
  change (unconfirmed_credits (credits (ses w1))) with pending in *.
  rewrite Hrun in Hframe, Hnow. simpl in Hframe, Hnow.
  destruct Hframe as (Hdb & Hhw & Hlog & Hcm & Hlb & _).
  exists w2. split.
  - unfold bind. rewrite recheck_unconfirmed_run.
    change (unconfirmed_credits (credits (ses w1))) with pending.
    rewrite Hrun. reflexivity.
  - repeat split; assumption.
Qed.

Lemma update_balances_run info w total cur rest :
  getbalance client "*" 0 = Some total ->
  CURRENCIES cfg = cur :: rest ->
  update_balances cfg client info w =
    Ok tt (committed_or_rolled_back false
             (set_ses (mkStore (credits (ses w))
                               (hwbalances (ses w) ++ [fresh_snapshot info total cur w]))
                      (set_rpc (rpc w ++ [GetBalance "*" 0]) w))).
Proof.
  intros Hb Hc.
  unfold update_balances, bind at 1, client_getbalance, rpc_call. rewrite Hb.
  unfold bind at 1, CURRENCIES_0. rewrite Hc.
  unfold ret, bind, ses_add_new_hwbalance. rewrite commit_silent_run.
  reflexivity.
Qed.
End BlockRuns.

Lemma committed_when_ok logs w :
  next_commit_ok w = true ->
  committed_or_rolled_back logs w =
    set_db (ses w) (set_commits (tail (commits w)) w).
Proof. unfold committed_or_rolled_back. intros ->. reflexivity. Qed.

Lemma rolled_back_when_failing logs w :
  next_commit_ok w = false ->
  committed_or_rolled_back logs w =
    set_ses (db w)
      (if logs
       then set_log (log w ++ [LogException (exn_message SQLAlchemyError)])
                    (set_commits (tail (commits w)) w)
       else set_commits (tail (commits w)) w).
Proof. unfold committed_or_rolled_back. intros ->. reflexivity. Qed.

(** X14: a block notification with a height above the watermark, the
    daemon answering and the commits succeeding, returns with the watermark
    at the new height and exactly one snapshot added after the ones there
    were: available is the balance of [getinfo], total the answer to
    [getbalance("*", 0)], the currency the first configured one, the
    network "bitcoin".  If the clock is later than the time of every
    snapshot of the network, [get_balance] then reports these figures. *)
Theorem block_appends_snapshot cfg client data w info total cur rest :
  getinfo client = Some info ->
  (lastblock w < Info.blocks info)%Z ->
  (forall j cj, credits (ses w) !! j = Some cj -> is_unconfirmed cj = true ->
                is_Some (gettransaction client (credit_txid cj))) ->
  getbalance client "*" 0 = Some total ->
  CURRENCIES cfg = cur :: rest ->
  all_commits_ok w ->
  unique_ref_ids (rechecked cfg client w) ->
  exists w',
    main cfg client "block" data w = Ok tt w' /\
    hwbalances (ses w') =
      hwbalances (ses w)
        ++ [HWBalance.mk (Info.balance info) total cur "bitcoin" (now w)] /\
    db w' = ses w' /\
    lastblock w' = Info.blocks info /\
    ((forall r, In r (hwbalances (ses w)) -> HWBalance.network r = "bitcoin" ->
                (HWBalance.time r < now w)%Z) ->
     get_balance w' = Ok (mkBalanceDict total (Info.balance info)) w').
Proof.
  intros Hinfo Hlt Hall Hb Hc Hok Huniq.
  destruct (main_block_run cfg client data w info Hinfo Hlt Hall)
    as (w2 & Hrun & Hcs & _ & Hhw & _ & Hcm & Hlb & Hnow).
  rewrite Hrun. clear Hrun.
  rewrite (update_balances_run cfg client info _ total cur rest Hb Hc).
  assert (Hu2 : refs_unique_b (credits (ses w2)) = true)
    by (apply refs_unique_b_spec; rewrite Hcs; exact Huniq).
  assert (Hok2 : all_commits_ok w2) by (apply (all_commits_ok_same w); assumption).
  set (w3 := committed_or_rolled_back true w2).
  assert (H3 : ses w3 = ses w2 /\ commits w3 = tail (commits w2) /\
               lastblock w3 = lastblock w2 /\ now w3 = now w2).
  { unfold w3, committed_or_rolled_back.
    rewrite (all_commits_ok_next w2 Hok2). simpl. auto. }
  destruct H3 as (Hs3 & Hc3 & Hl3 & Hn3).
  assert (Hok3 : all_commits_ok w3)
    by (apply (all_commits_ok_tail w2); [exact Hok2|exact Hc3|];
        rewrite Hs3; exact Hu2).
  match goal with |- context [committed_or_rolled_back false ?x] =>
    set (w4 := x) end.
  rewrite (committed_when_ok false w4)
    by (apply all_commits_ok_next;
        apply (all_commits_ok_same w3); [exact Hok3|reflexivity|];
        exact (proj2 Hok3)).
  eexists. split; [reflexivity|].
  subst w4. simpl. unfold fresh_snapshot. rewrite Hs3, Hhw, Hn3, Hnow, Hl3, Hlb.
  repeat split.
  intros Hlater. erewrite get_balance_first.
  2:{ simpl. apply first_hwbalance_snoc; [reflexivity|exact Hlater]. }
  reflexivity.
Qed.

Lemma block_appends_snapshot_witness :
  exists w',
    main Sample.cfg SampleDaemon.client "block" "" SampleDaemon.w_pending
      = Ok tt w' /\
    get_balance w' = Ok (mkBalanceDict 1200 1000) w' /\
    length (hwbalances (db w')) = 2.
Proof.
  destruct (block_appends_snapshot Sample.cfg SampleDaemon.client ""
              SampleDaemon.w_pending (Info.mk 10 1000) 1200 "BTC" []
              eq_refl ltac:(simpl; lia)
              ltac:(intros [|[|j]] cj [= <-] _; eexists; reflexivity)
              eq_refl eq_refl ltac:(split; [constructor|reflexivity])
              ltac:(apply refs_unique_b_spec; reflexivity))
    as (w' & Hr & Hh & Hd & _ & Hg).
  exists w'. split; [exact Hr|]. split.
  - apply Hg. intros r [<-|[]] _. simpl. lia.
  - rewrite Hd, Hh. reflexivity.
Defined.

(** X15: the watermark is moved before the credits are gone over.  When
    the daemon fails on the transaction of an unconfirmed credit, the
    notification of a block above the watermark ends with the daemon's
    error, nothing committed and no snapshot added, yet with the watermark
    at the new height: notified of the same height again, the process does
    nothing. *)
Theorem block_failure_moves_watermark cfg client data w info i c :
  getinfo client = Some info ->
  (lastblock w < Info.blocks info)%Z ->
  credits (ses w) !! i = Some c ->
  is_unconfirmed c = true ->
  gettransaction client (credit_txid c) = None ->
  exists w',
    main cfg client "block" data w = Raise JSONRPCException w' /\
    lastblock w' = Info.blocks info /\
    db w' = db w /\
    hwbalances (ses w') = hwbalances (ses w) /\
    forall data2,
      main cfg client "block" data2 w' = Ok tt (set_rpc (rpc w' ++ [GetInfo]) w').
Proof.
  intros Hinfo Hlt Hl Hu Hnone.
  rewrite (main_block_fresh cfg client data w info Hinfo Hlt).
  set (w1 := set_lastblock _ _).
  unfold bind. rewrite recheck_unconfirmed_run.
  set (pending := unconfirmed_credits (credits (ses w1))).
  destruct (recheck_loop_raises cfg client pending w1) as (w2 & Hraise).
  { exists (i, c). split; [|exact Hnone].
    apply unconfirmed_credits_In. split; assumption. }
  pose proof (recheck_loop_frame cfg client pending w1) as Hframe.
  rewrite Hraise in Hframe. simpl in Hframe.
  destruct Hframe as (Hdb & Hhw & _ & _ & Hlb & _).
  rewrite Hraise. exists w2. repeat split; try assumption.
  intros data2. apply (main_block_stale cfg client data2 w2 info Hinfo).
  rewrite Hlb. simpl. lia.
Qed.

Lemma block_failure_moves_watermark_witness :
  exists w',
    main Sample.cfg SampleBlock.forgetful "block" "" SampleDaemon.w_pending
      = Raise JSONRPCException w' /\
    lastblock w' = 10%Z /\
    main Sample.cfg SampleBlock.forgetful "block" "" w'
      = Ok tt (set_rpc (rpc w' ++ [GetInfo]) w').
Proof.
  destruct (block_failure_moves_watermark Sample.cfg SampleBlock.forgetful ""
              SampleDaemon.w_pending (Info.mk 10 1000) 0 SampleDaemon.cred_abc_0
              eq_refl ltac:(simpl; lia) eq_refl eq_refl eq_refl)
    as (w' & Hr & Hl & _ & _ & Hagain).
  exists w'. split; [exact Hr|]. split; [exact Hl|apply Hagain].
Defined.

Section BlockKeeps.
Variable cfg : Config.
Variable client : Daemon.

Lemma recheck_unconfirmed_keeps w i c :
  credits (ses w) !! i = Some c ->
  credits (db w) !! i = Some c ->
  (forall c' cs, In (i, c') (unconfirmed_credits (credits (ses w))) ->
                 recheck_step cfg client cs (i, c') !! i = cs !! i) ->
  let w' := world_of (recheck_unconfirmed cfg client w) in
  credits (ses w') !! i = Some c /\ credits (db w') !! i = Some c.
Proof.
  intros Hs Hd Hid. cbv zeta. rewrite recheck_unconfirmed_run.
  set (pending := unconfirmed_credits (credits (ses w))) in *.
  pose proof (recheck_loop_keeps cfg client pending w i Hid) as Hkeep.
  destruct (recheck_loop_frame cfg client pending w) as (Hdb & _).
  destruct (for_each (recheck_credit cfg client) pending w) as [[] w2|e w2];
    simpl in *.
  - unfold committed_or_rolled_back.
    destruct (next_commit_ok w2); simpl; rewrite ?Hdb, ?Hkeep; auto.
  - rewrite Hdb, Hkeep. auto.
Qed.

Lemma block_keeps data w i c :
  clean w ->
  credits (ses w) !! i = Some c ->
  (forall c' cs, In (i, c') (unconfirmed_credits (credits (ses w))) ->
                 recheck_step cfg client cs (i, c') !! i = cs !! i) ->
  let w' := world_of (main cfg client "block" data w) in
  credits (ses w') !! i = Some c /\ credits (db w') !! i = Some c.
Proof.
  intros Hclean Hs Hid. cbv zeta.
  assert (Hd : credits (db w) !! i = Some c) by (rewrite <- Hclean; exact Hs).
  destruct (getinfo client) as [info|] eqn:Hinfo.
  2:{ unfold main. simpl. unfold bind, client_getinfo, rpc_call.
      rewrite Hinfo. simpl. auto. }
  destruct (Z.leb_spec (Info.blocks info) (lastblock w)) as [Hle|Hlt].
  { rewrite (main_block_stale cfg client data w info Hinfo Hle). auto. }
  rewrite (main_block_fresh cfg client data w info Hinfo Hlt).
  set (w1 := set_lastblock _ _).
  pose proof (recheck_unconfirmed_keeps w1 i c Hs Hd Hid) as Hre.
  cbv zeta in Hre. unfold bind.
  destruct (recheck_unconfirmed cfg client w1) as [[] w2|e w2]; simpl in Hre.
  - destruct Hre as [Hs2 Hd2]. apply update_balances_lookup; assumption.
  - exact Hre.
Qed.
End BlockKeeps.

(** X16: a credit whose transaction has, by the daemon's report, fewer
    confirmations than the threshold comes out of a block notification as
    it went in, state and reference id included, whatever else happens
    during the notification (the session having no pending change at the
    start). *)
Theorem block_keeps_below_threshold cfg client data w i c txd :
  clean w ->
  credits (ses w) !! i = Some c ->
  gettransaction client (credit_txid c) = Some txd ->
  (Txd.confirmations txd < CONFS cfg)%Z ->
  let w' := world_of (main cfg client "block" data w) in
  credits (ses w') !! i = Some c /\ credits (db w') !! i = Some c.
Proof.
  intros Hclean Hl Htx Hlt. apply block_keeps; [exact Hclean|exact Hl|].
  intros c' cs Hin. apply unconfirmed_credits_In in Hin as [Hl' _].
  assert (c' = c) by congruence. subst c'.
  unfold recheck_step. simpl. rewrite Htx.
  apply Z.leb_gt in Hlt. rewrite Hlt. reflexivity.
Qed.

Lemma block_keeps_below_threshold_witness :
  let w' := world_of (main Sample.cfg SampleBlock.early "block" ""
                        SampleDaemon.w_pending) in
  credits (db w') !! 0 = Some SampleDaemon.cred_abc_0.
Proof.
  exact (proj2 (block_keeps_below_threshold Sample.cfg SampleBlock.early ""
                  SampleDaemon.w_pending 0 SampleDaemon.cred_abc_0
                  SampleBlock.tx_young eq_refl eq_refl eq_refl
                  ltac:(simpl; lia))).
Defined.

(** X17: when the commit of the confirmations fails, they are lost: with a
    session that had no pending change, the credits are afterwards as they
    were before the notification and the failure is logged; the watermark
    is at the new height all the same, and the snapshot is still added when
    the next commit succeeds. *)
Theorem block_commit_failure_loses_confirmations
    cfg client data w info total cur rest :
  getinfo client = Some info ->
  (lastblock w < Info.blocks info)%Z ->
  (forall j cj, credits (ses w) !! j = Some cj -> is_unconfirmed cj = true ->
                is_Some (gettransaction client (credit_txid cj))) ->
  getbalance client "*" 0 = Some total ->
  CURRENCIES cfg = cur :: rest ->
  clean w ->
  next_commit_ok w = false ->
  next_commit_ok (set_commits (tail (commits w)) w) = true ->
  exists w',
    main cfg client "block" data w = Ok tt w' /\
    credits (ses w') = credits (ses w) /\
    credits (db w') = credits (db w) /\
    log w' = log w ++ [LogException (exn_message SQLAlchemyError)] /\
    lastblock w' = Info.blocks info /\
    hwbalances (db w') =
      hwbalances (db w)
        ++ [HWBalance.mk (Info.balance info) total cur "bitcoin" (now w)].
Proof.
  intros Hinfo Hlt Hall Hb Hc Hclean Hfail Hnext.
  destruct (main_block_run cfg client data w info Hinfo Hlt Hall)
    as (w2 & Hrun & _ & Hdb & _ & Hlog & Hcm & Hlb & Hnow).
  rewrite Hrun. clear Hrun.
  rewrite (update_balances_run cfg client info _ total cur rest Hb Hc).
  assert (Hparts : refs_unique_b (credits (ses w)) = true /\
                   commit_outcome w = false /\
                   commit_outcome (set_commits (tail (commits w)) w) = true).
  { unfold next_commit_ok in Hfail, Hnext.
    apply andb_true_iff in Hnext as [Hout Hu]. simpl in Hu.
    rewrite Hu, andb_true_r in Hfail. auto. }
  destruct Hparts as (Hu & Hout1 & Hout2).
  assert (Hfail2 : next_commit_ok w2 = false).
  { unfold next_commit_ok, commit_outcome in *. rewrite Hcm, Hout1.
    reflexivity. }
  rewrite (rolled_back_when_failing true w2 Hfail2).
  match goal with |- context [committed_or_rolled_back false ?x] =>
    set (w4 := x) end.
  assert (Hok4 : next_commit_ok w4 = true).
  { unfold next_commit_ok, commit_outcome in *. subst w4. simpl.
    simpl in Hout2. rewrite Hcm, Hout2, Hdb, <- Hclean, Hu. reflexivity. }
  rewrite (committed_when_ok false w4 Hok4).
  eexists. split; [reflexivity|].
  subst w4. unfold fresh_snapshot. simpl. rewrite Hdb, Hlog, Hlb, Hnow.
  rewrite <- Hclean. repeat split.
Qed.

Lemma block_commit_failure_loses_confirmations_witness :
  exists w',
    main Sample.cfg SampleDaemon.client "block" "" SampleBlock.w_failing_once
      = Ok tt w' /\
    credits (db w') = [SampleDaemon.cred_abc_0] /\
    lastblock w' = 10%Z.
Proof.
  destruct (block_commit_failure_loses_confirmations Sample.cfg
              SampleDaemon.client "" SampleBlock.w_failing_once
              (Info.mk 10 1000) 1200 "BTC" []
              eq_refl ltac:(simpl; lia)
              ltac:(intros [|[|j]] cj [= <-] _; eexists; reflexivity)
              eq_refl eq_refl eq_refl eq_refl eq_refl)
    as (w' & Hr & _ & Hd & _ & Hl & _).
  exists w'. split; [exact Hr|]. split; [exact Hd|exact Hl].
Defined.

(** ** Reference ids after a block notification *)

(** X18: the reference id a confirmed credit comes out with does not depend
    on the credit: after a block notification that confirms it (fresh
    height, daemon answering, commit succeeding), its reference id is the
    transaction id the daemon reports followed by the index of the last
    output of the transaction. *)
Theorem block_files_under_last_output cfg client data w info i c txd outputs put :
  getinfo client = Some info ->
  (lastblock w < Info.blocks info)%Z ->
  (forall j cj, credits (ses w) !! j = Some cj -> is_unconfirmed cj = true ->
                is_Some (gettransaction client (credit_txid cj))) ->
  next_commit_ok w = true ->
  unique_ref_ids (rechecked cfg client w) ->
  credits (ses w) !! i = Some c ->
  is_unconfirmed c = true ->
  gettransaction client (credit_txid c) = Some txd ->
  (CONFS cfg <= Txd.confirmations txd)%Z ->
  Txd.details txd = outputs ++ [put] ->
  let w' := world_of (main cfg client "block" data w) in
  exists c',
    credits (db w') !! i = Some c' /\
    Credit.ref_id c' = ref_of (Txd.txid txd) (length outputs) /\
    Credit.transaction_state c' = "complete".
Proof.
  intros Hinfo Hlt Hall Hok Huniq Hl Hu Htx Hconf Hd. cbv zeta.
  destruct (block_completes cfg client data w info i c txd
              Hinfo Hlt Hall Hok Huniq Hl Hu Htx Hconf) as (_ & Hdb & _).
  exists (completed txd c). split; [exact Hdb|].
  split; [apply (completed_ref_id txd c outputs put Hd)|apply completed_state].
Qed.

Lemma block_files_under_last_output_witness :
  let w' := world_of (main Sample.cfg SampleDaemon.client "block" ""
                        SampleDaemon.w_pending) in
  exists c', credits (db w') !! 0 = Some c' /\ Credit.ref_id c' = "abc:1".
Proof.
  destruct (block_files_under_last_output Sample.cfg SampleDaemon.client ""
              SampleDaemon.w_pending (Info.mk 10 1000) 0 SampleDaemon.cred_abc_0
              SampleDaemon.tx_abc [Detail.mk "known-addr" 150 "receive"]
              (Detail.mk "known-addr" 20 "receive")
              eq_refl ltac:(simpl; lia)
              ltac:(intros [|[|j]] cj [= <-] _; eexists; reflexivity)
              eq_refl ltac:(apply refs_unique_b_spec; reflexivity)
              eq_refl eq_refl eq_refl ltac:(simpl; lia) eq_refl)
    as (c' & Hl & Hr & _).
  exists c'. split; [exact Hl|exact Hr].
Defined.

Lemma credits_with_ref_cons r c cs :
  credits_with_ref r (c :: cs) =
    if decide (Credit.ref_id c = r) then c :: credits_with_ref r cs
    else credits_with_ref r cs.
Proof. reflexivity. Qed.

Lemma credits_with_ref_one r (cs : list Credit.t) j b :
  cs !! j = Some b -> Credit.ref_id b = r ->
  1 <= length (credits_with_ref r cs).
Proof.
  revert j. induction cs as [|x cs IH]; intros j Hj Hr; [discriminate|].
  rewrite credits_with_ref_cons. destruct j as [|j]; simpl in Hj.
  - injection Hj as ->. rewrite decide_True by exact Hr. simpl. lia.
  - specialize (IH j Hj Hr). destruct (decide _); simpl; lia.
Qed.

Lemma credits_with_ref_two r (cs : list Credit.t) : forall i j a b,
  i <> j -> cs !! i = Some a -> cs !! j = Some b ->
  Credit.ref_id a = r -> Credit.ref_id b = r ->
  2 <= length (credits_with_ref r cs).
Proof.
  induction cs as [|x cs IH]; intros i j a b Hne Hi Hj Ha Hb; [discriminate|].
  rewrite credits_with_ref_cons.
  destruct i as [|i], j as [|j]; simpl in Hi, Hj; try congruence.
  - injection Hi as ->. rewrite decide_True by exact Ha. simpl.
    pose proof (credits_with_ref_one r cs j b Hj Hb). lia.
  - injection Hj as ->. rewrite decide_True by exact Hb. simpl.
    pose proof (credits_with_ref_one r cs i a Hi Ha). lia.
  - assert (Hne' : i <> j) by congruence.
    specialize (IH i j a b Hne' Hi Hj Ha Hb).
    destruct (decide _); simpl; lia.
Qed.

(** ** What a block notification leaves alone *)

Lemma same_funds_refl c : same_funds c c.
Proof. unfold same_funds. auto 10. Qed.

Lemma same_funds_trans a b c : same_funds a b -> same_funds b c -> same_funds a c.
Proof.
  unfold same_funds. intros (?&?&?&?&?&?) (?&?&?&?&?&?).
  repeat split; congruence.
Qed.

Lemma set_ref_ids_funds txid outputs : forall c,
  same_funds c (set_ref_ids txid outputs c).
Proof.
  unfold set_ref_ids.
  induction outputs as [|pput outputs IH]; intros c; simpl;
    [apply same_funds_refl|].
  eapply same_funds_trans; [|apply IH]. unfold same_funds. simpl. auto 10.
Qed.

Lemma completed_funds txd c : same_funds c (completed txd c).
Proof.
  unfold completed. eapply same_funds_trans; [|apply set_ref_ids_funds].
  unfold same_funds. simpl. auto 10.
Qed.

Lemma Forall2_same_funds_refl cs : Forall2 same_funds cs cs.
Proof. induction cs; constructor; [apply same_funds_refl|assumption]. Qed.

Lemma Forall2_same_funds_trans l1 : forall l2 l3,
  Forall2 same_funds l1 l2 -> Forall2 same_funds l2 l3 -> Forall2 same_funds l1 l3.
Proof.
  induction l1 as [|a l1 IH]; intros l2 l3 H12 H23.
  - inversion H12; subst. inversion H23; subst. constructor.
  - inversion H12; subst. inversion H23; subst. constructor.
    + eapply same_funds_trans; eassumption.
    + eapply IH; eassumption.
Qed.

Lemma Forall2_same_funds_alter (f : Credit.t -> Credit.t) cs : forall i,
  (forall c, same_funds c (f c)) -> Forall2 same_funds cs (alter f i cs).
Proof.
  induction cs as [|c cs IH]; intros i Hf; [constructor|].
  destruct i as [|i]; simpl.
  - constructor; [apply Hf|apply Forall2_same_funds_refl].
  - constructor; [apply same_funds_refl|apply IH; exact Hf].
Qed.

Section BlockFrame.
Variable cfg : Config.
Variable client : Daemon.

Lemma recheck_step_funds cs icred :
  Forall2 same_funds cs (recheck_step cfg client cs icred).
Proof.
  unfold recheck_step.
  destruct (gettransaction client _) as [txd|]; [|apply Forall2_same_funds_refl].
  destruct (_ <=? _)%Z; [|apply Forall2_same_funds_refl].
  apply Forall2_same_funds_alter. intros c. apply completed_funds.
Qed.

Lemma recheck_loop_funds pending : forall w,
  Forall2 same_funds (credits (ses w))
    (credits (ses (world_of (for_each (recheck_credit cfg client) pending w)))).
Proof.
  induction pending as [|[i cred] pending IH]; intros w;
    [apply Forall2_same_funds_refl|].
  rewrite for_each_cons, recheck_credit_run. cbv zeta.
  destruct (gettransaction client (credit_txid cred)) as [txd|] eqn:Htx;
    [|apply Forall2_same_funds_refl].
  eapply Forall2_same_funds_trans; [|apply IH].
  simpl. apply recheck_step_funds.
Qed.

(** After [recheck_unconfirmed] on a session without pending changes, both
    credit tables hold the funds they held, the session has no pending
    change if the call returned, and the snapshots are untouched. *)
Lemma recheck_unconfirmed_frame w :
  clean w ->
  let r := recheck_unconfirmed cfg client w in
  Forall2 same_funds (credits (ses w)) (credits (ses (world_of r))) /\
  Forall2 same_funds (credits (ses w)) (credits (db (world_of r))) /\
  hwbalances (ses (world_of r)) = hwbalances (ses w) /\
  hwbalances (db (world_of r)) = hwbalances (ses w) /\
  (returns r = true -> clean (world_of r)).
Proof.
  intros Hclean. cbv zeta. rewrite recheck_unconfirmed_run.
  set (pending := unconfirmed_credits (credits (ses w))).
  pose proof (recheck_loop_funds pending w) as Hfunds.
  destruct (recheck_loop_frame cfg client pending w) as (Hdb & Hhw & _).
  destruct (for_each (recheck_credit cfg client) pending w) as [[] w2|e w2];
    simpl in *.
  - unfold committed_or_rolled_back, clean.
    destruct (next_commit_ok w2); simpl; rewrite ?Hdb, ?Hhw, <- ?Hclean;
      repeat split; auto using Forall2_same_funds_refl.
  - rewrite Hdb, Hhw, <- Hclean.
    repeat split; auto using Forall2_same_funds_refl. discriminate.
Qed.

(** [update_balances] on a session without pending changes: the credits
    stay, the snapshots stay, and at most one snapshot of the network is
    added after them. *)
Lemma update_balances_frame info w :
  clean w ->
  let w' := world_of (update_balances cfg client info w) in
  credits (ses w') = credits (ses w) /\ credits (db w') = credits (ses w) /\
  (hwbalances (ses w') = hwbalances (ses w) \/
   exists h, hwbalances (ses w') = hwbalances (ses w) ++ [h] /\
             HWBalance.network h = lower NETWORK) /\
  (hwbalances (db w') = hwbalances (ses w) \/
   exists h, hwbalances (db w') = hwbalances (ses w) ++ [h] /\
             HWBalance.network h = lower NETWORK).
Proof.
  intros Hclean. cbv zeta.
  unfold update_balances, bind at 1, client_getbalance, rpc_call.
  destruct (getbalance client "*" 0) as [total|];
    [|simpl; rewrite <- Hclean; auto].
  unfold bind at 1, CURRENCIES_0.
  destruct (CURRENCIES cfg) as [|cur rest]; [simpl; rewrite <- Hclean; auto|].
  unfold ret, bind, ses_add_new_hwbalance.
  rewrite commit_silent_run. unfold committed_or_rolled_back.
  match goal with |- context [next_commit_ok ?x] => destruct (next_commit_ok x) end;
    simpl; rewrite <- ?Hclean; repeat split; auto;
    right; eexists; split; reflexivity.
Qed.
End BlockFrame.

Lemma update_balances_log cfg client info w :
  let w' := world_of (update_balances cfg client info w) in
  log w' = log w /\ lastblock w' = lastblock w.
Proof.
  cbv zeta. unfold update_balances, bind at 1, client_getbalance, rpc_call.
  destruct (getbalance client "*" 0) as [total|]; [|simpl; auto].
  unfold bind at 1, CURRENCIES_0.
  destruct (CURRENCIES cfg) as [|cur rest]; [simpl; auto|].
  unfold ret, bind, ses_add_new_hwbalance.
  rewrite commit_silent_run. unfold committed_or_rolled_back.
  match goal with |- context [next_commit_ok ?x] => destruct (next_commit_ok x) end;
    simpl; auto.
Qed.

(** X19: two unconfirmed credits of the same transaction are not confirmed
    by a block notification.  The rewrite puts both under one reference id,
    which the UNIQUE column refuses: the commit fails, and on a session
    without pending changes both credit tables are afterwards as they were
    before, the failure is logged, and the watermark is at the new height
    all the same. *)
Theorem block_refuses_merged_reference_ids cfg client data w info i j ci cj txd :
  getinfo client = Some info ->
  (lastblock w < Info.blocks info)%Z ->
  (forall k ck, credits (ses w) !! k = Some ck -> is_unconfirmed ck = true ->
                is_Some (gettransaction client (credit_txid ck))) ->
  clean w ->
  i <> j ->
  credits (ses w) !! i = Some ci -> is_unconfirmed ci = true ->
  credits (ses w) !! j = Some cj -> is_unconfirmed cj = true ->
  gettransaction client (credit_txid ci) = Some txd ->
  gettransaction client (credit_txid cj) = Some txd ->
  (CONFS cfg <= Txd.confirmations txd)%Z ->
  Txd.details txd <> [] ->
  let w' := world_of (main cfg client "block" data w) in
  ~ unique_ref_ids (rechecked cfg client w) /\
  credits (ses w') = credits (ses w) /\
  credits (db w') = credits (db w) /\
  log w' = log w ++ [LogException (exn_message SQLAlchemyError)] /\
  lastblock w' = Info.blocks info.
Proof.
  intros Hinfo Hlt Hall Hclean Hne Hi Hui Hj Huj Hti Htj Hconf Hd. cbv zeta.
  assert (Hcollide : ~ unique_ref_ids (rechecked cfg client w)).
  { destruct (exists_last Hd) as (outputs & put & Hlast).
    intros Hunique.
    specialize (Hunique (ref_of (Txd.txid txd) (length outputs))).
    assert (Hin : forall k ck, credits (ses w) !! k = Some ck ->
                    is_unconfirmed ck = true ->
                    gettransaction client (credit_txid ck) = Some txd ->
                    rechecked cfg client w !! k = Some (completed txd ck)).
    { intros k ck Hk Huk Htk. unfold rechecked.
      apply recheck_fold_completes; try assumption.
      - apply enumerate_from_NoDup.
      - apply unconfirmed_credits_In. split; assumption. }
    pose proof (credits_with_ref_two _ _ i j _ _ Hne
                  (Hin i ci Hi Hui Hti) (Hin j cj Hj Huj Htj)
                  (completed_ref_id txd ci outputs put Hlast)
                  (completed_ref_id txd cj outputs put Hlast)).
    lia. }
  split; [exact Hcollide|].
  destruct (main_block_run cfg client data w info Hinfo Hlt Hall)
    as (w2 & Hrun & Hcs & Hdb & _ & Hlog & Hcm & Hlb & _).
  rewrite Hrun. clear Hrun.
  assert (Hfail2 : next_commit_ok w2 = false).
  { unfold next_commit_ok.
    destruct (refs_unique_b (credits (ses w2))) eqn:Hu;
      [|apply andb_false_r].
    exfalso. apply Hcollide. apply refs_unique_b_spec in Hu.
    unfold rechecked. rewrite <- Hcs. exact Hu. }
  rewrite (rolled_back_when_failing true w2 Hfail2).
  match goal with |- context [update_balances _ _ _ ?x] => set (w3 := x) end.
  assert (Hclean3 : clean w3) by reflexivity.
  pose proof (update_balances_frame cfg client info w3 Hclean3) as Hframe.
  pose proof (update_balances_log cfg client info w3) as Hlogs.
  cbv zeta in Hframe, Hlogs.
  destruct Hframe as (Hs & Hd' & _). destruct Hlogs as (Hl' & Hb').
  rewrite Hs, Hd', Hl', Hb'. subst w3. simpl.
  rewrite Hdb, Hlog, Hlb, <- Hclean. auto.
Qed.

Lemma block_refuses_merged_reference_ids_witness :
  let w' := world_of (main Sample.cfg SampleDaemon.client "block" ""
                        SampleBlock.w_both) in
  credits (db w') = [SampleDaemon.cred_abc_0; SampleBlock.cred_abc_1] /\
  log w' = [LogException (exn_message SQLAlchemyError)] /\
  lastblock w' = 10%Z.
Proof.
  destruct (block_refuses_merged_reference_ids Sample.cfg SampleDaemon.client ""
              SampleBlock.w_both (Info.mk 10 1000) 0 1 SampleDaemon.cred_abc_0
              SampleBlock.cred_abc_1 SampleDaemon.tx_abc
              eq_refl ltac:(simpl; lia)
              ltac:(intros [|[|[|k]]] ck [= <-] _; eexists; reflexivity)
              eq_refl ltac:(discriminate)
              eq_refl eq_refl eq_refl eq_refl eq_refl eq_refl
              ltac:(simpl; lia) ltac:(discriminate))
    as (_ & _ & Hd & Hl & Hb).
  split; [exact Hd|]. split; [exact Hl|exact Hb].
Defined.

(** X20: a block notification neither creates nor deletes a credit, and
    changes nothing of a credit but its state and its reference id: on a
    session without pending changes, however the notification ends, each
    credit table holds, place by place, credits of the amount, address,
    currency, network, reference and user it held. *)
Theorem block_keeps_funds cfg client data w :
  clean w ->
  let w' := world_of (main cfg client "block" data w) in
  Forall2 same_funds (credits (ses w)) (credits (ses w')) /\
  Forall2 same_funds (credits (db w)) (credits (db w')).
Proof.
  intros Hclean. cbv zeta. rewrite <- Hclean.
  destruct (getinfo client) as [info|] eqn:Hinfo.
  2:{ unfold main. simpl. unfold bind, client_getinfo, rpc_call.
      rewrite Hinfo. simpl. rewrite <- Hclean.
      split; apply Forall2_same_funds_refl. }
  destruct (Z.leb_spec (Info.blocks info) (lastblock w)) as [Hle|Hlt].
  { rewrite (main_block_stale cfg client data w info Hinfo Hle). simpl.
    rewrite <- Hclean. split; apply Forall2_same_funds_refl. }
  rewrite (main_block_fresh cfg client data w info Hinfo Hlt).
  set (w1 := set_lastblock _ _).
  assert (Hclean1 : clean w1) by exact Hclean.
  pose proof (recheck_unconfirmed_frame cfg client w1 Hclean1) as Hre.
  cbv zeta in Hre. unfold bind.
  destruct (recheck_unconfirmed cfg client w1) as [[] w2|e w2];
    simpl in Hre; destruct Hre as (Hs & Hd & _ & _ & Hc2).
  - specialize (Hc2 eq_refl).
    pose proof (update_balances_frame cfg client info w2 Hc2) as Hub.
    cbv zeta in Hub. destruct Hub as (-> & -> & _). split; exact Hs.
  - split; assumption.
Qed.

Lemma block_keeps_funds_witness :
  let w' := world_of (main Sample.cfg SampleDaemon.client "block" ""
                        SampleBlock.w_both) in
  length (credits (db w')) = 2 /\
  Forall2 same_funds (credits (db SampleBlock.w_both)) (credits (db w')).
Proof.
  split; [reflexivity|].
  exact (proj2 (block_keeps_funds Sample.cfg SampleDaemon.client ""
                  SampleBlock.w_both eq_refl)).
Defined.

(** X21: a block notification never rewrites or removes a snapshot: on a
    session without pending changes, however the notification ends, the log
    of snapshots is the one there was, or that one with a single snapshot
    of the network "bitcoin" added at its end. *)
Theorem block_keeps_snapshots cfg client data w :
  clean w ->
  let w' := world_of (main cfg client "block" data w) in
  (hwbalances (db w') = hwbalances (db w) \/
   exists h, hwbalances (db w') = hwbalances (db w) ++ [h] /\
             HWBalance.network h = "bitcoin") /\
  (hwbalances (ses w') = hwbalances (ses w) \/
   exists h, hwbalances (ses w') = hwbalances (ses w) ++ [h] /\
             HWBalance.network h = "bitcoin").
Proof.
  intros Hclean. cbv zeta. rewrite <- Hclean.
  destruct (getinfo client) as [info|] eqn:Hinfo.
  2:{ unfold main. simpl. unfold bind, client_getinfo, rpc_call.
      rewrite Hinfo. simpl. rewrite <- Hclean. auto. }
  destruct (Z.leb_spec (Info.blocks info) (lastblock w)) as [Hle|Hlt].
  { rewrite (main_block_stale cfg client data w info Hinfo Hle). simpl.
    rewrite <- Hclean. auto. }
  rewrite (main_block_fresh cfg client data w info Hinfo Hlt).
  set (w1 := set_lastblock _ _).
  assert (Hclean1 : clean w1) by exact Hclean.
  pose proof (recheck_unconfirmed_frame cfg client w1 Hclean1) as Hre.
  cbv zeta in Hre. unfold bind.
  destruct (recheck_unconfirmed cfg client w1) as [[] w2|e w2];
    simpl in Hre; destruct Hre as (_ & _ & Hhs & Hhd & Hc2).
  - specialize (Hc2 eq_refl).
    pose proof (update_balances_frame cfg client info w2 Hc2) as Hub.
    cbv zeta in Hub. destruct Hub as (_ & _ & Hs & Hd).
    rewrite Hhs in Hs, Hd. split; assumption.
  - simpl. rewrite Hhs, Hhd. auto.
Qed.

Lemma block_keeps_snapshots_witness :
  let w' := world_of (main Sample.cfg SampleDaemon.client "block" ""
                        SampleDaemon.w_pending) in
  hwbalances (db w') =
    hwbalances (db SampleDaemon.w_pending)
      ++ [HWBalance.mk 1000 1200 "BTC" "bitcoin" 50].
Proof.
  destruct (block_keeps_snapshots Sample.cfg SampleDaemon.client ""
              SampleDaemon.w_pending eq_refl) as ([Hsame|(h & Hh & _)] & _).
  - discriminate Hsame.
  - reflexivity.
Defined.
